(** * Async inference job controller of [app.py]: model and properties

    The development embeds the job-lifecycle code of [app.py]
    ([poll_until_complete], [extract_image_bytes_from_result] with its nested
    [find_first_url], and the two route handlers [generate_image] and
    [upload_image_to_spaces]) as Rocq functions, and proves the properties the
    specification states about them.

    Conventions of the model:
    - a value parsed from JSON is a [json] tree; a Python [dict] is an
      association list in insertion order, looked up by [dict_get];
    - a Python [str] is the [string] of the bytes of its UTF-8 encoding, so
      an ASCII character is one [ascii] below 128 and every other character
      is two to four of them from 128 up;
    - [time.time()] readings and durations are whole numbers of
      milliseconds, and the test of line 122 compares them exactly; the
      [timeout_seconds] argument stays in seconds.  The properties below
      that speak of elapsed time are stated for such readings;
    - everything outside the process (the inference endpoints, the asset
      host, the object store) is a field of the record [remote];
    - an exception is a value of [exn], and a computation that may raise
      returns a [res]. *)

From Stdlib Require Import ZArith NArith List String Ascii Bool Lia.
From Stdlib Require Import Strings.Byte.
From Stdlib Require Import Floats.PrimFloat.
Import ListNotations.

Local Open Scope string_scope.
Local Open Scope list_scope.
Local Open Scope Z_scope.

(** ** Values parsed from JSON *)

Module Json.

Unset Elimination Schemes.
Inductive json : Type :=
| JNull
| JBool (b : bool)
| JInt (n : Z)
| JFloat (f : float)
| JStr (s : string)
| JList (l : list json)
| JDict (d : list (string * json)).
Set Elimination Schemes.

(** Induction over the tree, with the hypothesis available for every element
    of a list and every value of a dict. *)
Definition json_ind (P : json -> Prop)
  (HNull : P JNull)
  (HBool : forall b, P (JBool b))
  (HInt : forall n, P (JInt n))
  (HFloat : forall f, P (JFloat f))
  (HStr : forall s, P (JStr s))
  (HList : forall l, Forall P l -> P (JList l))
  (HDict : forall d, Forall (fun kv => P (snd kv)) d -> P (JDict d))
  : forall j, P j :=
  fix go (j : json) : P j :=
    match j with
    | JNull => HNull
    | JBool b => HBool b
    | JInt n => HInt n
    | JFloat f => HFloat f
    | JStr s => HStr s
    | JList l =>
        HList l ((fix elems (l : list json) : Forall P l :=
                    match l with
                    | [] => Forall_nil _
                    | x :: tl => Forall_cons _ (go x) (elems tl)
                    end) l)
    | JDict d =>
        HDict d ((fix items (d : list (string * json))
                    : Forall (fun kv => P (snd kv)) d :=
                    match d with
                    | [] => Forall_nil _
                    | kv :: tl =>
                        @Forall_cons _ (fun kv => P (snd kv)) kv tl
                          (go (snd kv)) (items tl)
                    end) d)
    end.

(** Python truth value of a parsed JSON value: [None], [False], zero, and the
    empty string, list and dict are false. *)
Definition truthy (v : json) : bool :=
  match v with
  | JNull => false
  | JBool b => b
  | JInt n => negb (n =? 0)
  | JFloat f => negb (PrimFloat.eqb f PrimFloat.zero)
  | JStr s => negb (s =? "")%string
  | JList l => match l with [] => false | _ => true end
  | JDict d => match d with [] => false | _ => true end
  end.

(** [a or b] *)
Definition py_or (a b : json) : json := if truthy a then a else b.

(** [d.get(k)] on the items of a dict: [None] when the key is missing. *)
Fixpoint dict_get (k : string) (d : list (string * json)) : json :=
  match d with
  | [] => JNull
  | (k', v) :: rest => if (k' =? k)%string then v else dict_get k rest
  end.

(** [k in d] *)
Fixpoint has_key (k : string) (d : list (string * json)) : bool :=
  match d with
  | [] => false
  | (k', _) :: rest => (k' =? k)%string || has_key k rest
  end.

End Json.
Import Json.

(** ** Strings and bytes *)

Module Str.

Definition is_lower (c : ascii) : bool :=
  let n := N_of_ascii c in ((97 <=? n) && (n <=? 122))%N.

Definition is_upper (c : ascii) : bool :=
  let n := N_of_ascii c in ((65 <=? n) && (n <=? 90))%N.

(** One character of [str.upper()]: [a]..[z] go to [A]..[Z]. *)
Definition upper_ascii (c : ascii) : ascii :=
  if is_lower c then ascii_of_N (N_of_ascii c - 32) else c.

Definition lower_ascii (c : ascii) : ascii :=
  if is_upper c then ascii_of_N (N_of_ascii c + 32) else c.

(** [s.upper()] of a [str] of ASCII characters, one character at a time. *)
Fixpoint upper_letters (s : string) : string :=
  match s with
  | EmptyString => EmptyString
  | String c rest => String (upper_ascii c) (upper_letters rest)
  end.

(** The characters outside ASCII whose upper case is made of ASCII letters
    only, by the bytes of their encoding.  Two bytes: U+00DF (sharp s,
    [C3 9F]), U+0131 (dotless i, [C4 B1]) and U+017F (long s, [C5 BF]). *)
Definition upper_of_two (c d : ascii) : option string :=
  match N_of_ascii c, N_of_ascii d with
  | 195, 159 => Some "SS"
  | 196, 177 => Some "I"
  | 197, 191 => Some "S"
  | _, _ => None
  end%N.

(** Three bytes: the ligatures U+FB00 to U+FB06, [EF AC 80] to [EF AC 86]. *)
Definition upper_of_three (c d e : ascii) : option string :=
  match N_of_ascii c, N_of_ascii d, N_of_ascii e with
  | 239, 172, 128 => Some "FF"
  | 239, 172, 129 => Some "FI"
  | 239, 172, 130 => Some "FL"
  | 239, 172, 131 => Some "FFI"
  | 239, 172, 132 => Some "FFL"
  | 239, 172, 133 => Some "ST"
  | 239, 172, 134 => Some "ST"
  | _, _, _ => None
  end%N.

(** [s.upper()], as far as line 115 needs it.  Python maps every character
    to its upper case by the Unicode tables, and the result is only compared
    with the ASCII words of lines 117 and 120.  Here the ASCII letters and
    the ten characters above are mapped as Python maps them; every other
    character is left as it is, where Python gives a character that is
    outside ASCII as well.  So [upper s] equals an ASCII word exactly when
    [s.upper()] does. *)
Fixpoint upper (s : string) : string :=
  match s with
  | EmptyString => EmptyString
  | String c rest =>
      match rest with
      | String d rest1 =>
          match upper_of_two c d with
          | Some u => u ++ upper rest1
          | None =>
              match rest1 with
              | String e rest2 =>
                  match upper_of_three c d e with
                  | Some u => u ++ upper rest2
                  | None => String (upper_ascii c) (upper rest)
                  end
              | EmptyString => String (upper_ascii c) (upper rest)
              end
          end
      | EmptyString => String (upper_ascii c) EmptyString
      end
  end%string.

(** [s.startswith(p)] *)
Definition startswith (s p : string) : bool := String.prefix p s.

(** [s in (w1, w2, ...)] for a tuple of strings *)
Definition in_tuple (s : string) (ws : list string) : bool :=
  existsb (String.eqb s) ws.

(** [s] spells the upper-case word [w] in some mix of letter cases: same
    length, and each character is the one of [w] or its lower-case form. *)
Fixpoint same_word (s w : string) : bool :=
  match s, w with
  | EmptyString, EmptyString => true
  | String c s', String d w' =>
      (Ascii.eqb c d || Ascii.eqb c (lower_ascii d)) && same_word s' w'
  | _, _ => false
  end.

Definition spells_one_of (s : string) (ws : list string) : bool :=
  existsb (same_word s) ws.

Definition all_upper (w : string) : bool :=
  forallb is_upper (list_ascii_of_string w).

End Str.
Import Str.

(** ** Exceptions and results *)

(** What a call into [requests] raises: [HTTPError] comes from
    [raise_for_status()], the others from the connection, the read timeout
    ([requests.exceptions.Timeout], which is not the builtin [TimeoutError]),
    a body that is not JSON, and a URL that cannot be requested. *)
Inductive request_failure : Type :=
| HTTPError (status_code : Z)
| ConnectionError
| ReadTimeout
| JSONDecodeError
| InvalidURL.

(** The exceptions of the model: those of [requests], the two the polling
    loop raises itself, those of [.get], [**], [time.sleep] and
    [base64.b64decode] on values they do not take, and the
    [HTTPException] of Flask for a request it does not take. *)
Inductive exn : Type :=
| RequestException (f : request_failure)
| TimeoutError (timeout_seconds : Z)
| RuntimeError (status_json : json)
| AttributeError
| TypeError
| ValueError
| OverflowError
| OSError
| BinasciiError
| HTTPException (code : Z).

Inductive res (A : Type) : Type :=
| Ok (a : A)
| Raise (e : exn).
Arguments Ok {A} a.
Arguments Raise {A} e.

Definition bind {A B} (m : res A) (k : A -> res B) : res B :=
  match m with
  | Ok a => k a
  | Raise e => Raise e
  end.

Notation "x <- m ;; k" := (bind m (fun x => k))
  (at level 61, m at next level, right associativity).

(** ** [base64.b64decode] *)

Module Base64.

(** Value of a character of the standard alphabet, [None] for any other
    character. *)
Definition b64_value (c : ascii) : option N :=
  let n := N_of_ascii c in
  (if (65 <=? n) && (n <=? 90) then Some (n - 65)
   else if (97 <=? n) && (n <=? 122) then Some (n - 97 + 26)
   else if (48 <=? n) && (n <=? 57) then Some (n - 48 + 52)
   else if n =? 43 then Some 62
   else if n =? 47 then Some 63
   else None)%N.

Definition byte_of_N (n : N) : byte := byte_of_ascii (ascii_of_N n).

(** The decoding loop of [binascii.a2b_base64] without [strict_mode]:
    characters outside the alphabet are skipped, a pad closes the input once
    the quad is complete with it, and input that ends inside a quad is an
    error.  [acc] holds the bytes written so far, last first. *)
Fixpoint a2b_loop (s : string) (quad_pos leftchar pads : N) (acc : list byte)
  : res (list byte) :=
  match s with
  | EmptyString =>
      if (quad_pos =? 0)%N then Ok (rev acc) else Raise BinasciiError
  | String c rest =>
      if Ascii.eqb c "="%char then
        if (2 <=? quad_pos)%N then
          if (4 <=? quad_pos + (pads + 1))%N then Ok (rev acc)
          else a2b_loop rest quad_pos leftchar (pads + 1)%N acc
        else a2b_loop rest quad_pos leftchar pads acc
      else
        match b64_value c with
        | None => a2b_loop rest quad_pos leftchar pads acc
        | Some this_ch =>
            match quad_pos with
            | 0%N => a2b_loop rest 1%N this_ch 0%N acc
            | 1%N =>
                a2b_loop rest 2%N (N.land this_ch 15) 0%N
                  (byte_of_N (N.lor (N.shiftl leftchar 2) (N.shiftr this_ch 4))
                   :: acc)
            | 2%N =>
                a2b_loop rest 3%N (N.land this_ch 3) 0%N
                  (byte_of_N (N.lor (N.shiftl leftchar 4) (N.shiftr this_ch 2))
                   :: acc)
            | _ =>
                a2b_loop rest 0%N 0%N 0%N
                  (byte_of_N (N.lor (N.shiftl leftchar 6) this_ch) :: acc)
            end
        end
  end.

Definition a2b_base64 (s : string) : res (list byte) := a2b_loop s 0 0 0 [].

Definition is_ascii (c : ascii) : bool := (N_of_ascii c <? 128)%N.

(** [base64.b64decode(v)] for a value taken from the result: a [str] must be
    ASCII ([ValueError] otherwise), and a value that is no [str] is a
    [TypeError]. *)
Definition b64decode (v : json) : res (list byte) :=
  match v with
  | JStr s =>
      if forallb is_ascii (list_ascii_of_string s) then a2b_base64 s
      else Raise ValueError
  | _ => Raise TypeError
  end.

(** The bytes of an ASCII text. *)
Definition bytes_of_string (s : string) : list byte :=
  map byte_of_ascii (list_ascii_of_string s).

(** The standard alphabet (RFC 4648, table 1). *)
Definition b64_char (n : N) : ascii :=
  (if n <? 26 then ascii_of_N (n + 65)
   else if n <? 52 then ascii_of_N (n - 26 + 97)
   else if n <? 62 then ascii_of_N (n - 52 + 48)
   else if n =? 62 then ascii_of_N 43
   else ascii_of_N 47)%N.

(** The four 6-bit groups of three bytes. *)
Definition sextet1 (x : N) : N := N.shiftr x 2.
Definition sextet2 (x y : N) : N := N.lor (N.shiftl (N.land x 3) 4) (N.shiftr y 4).
Definition sextet3 (y z : N) : N := N.lor (N.shiftl (N.land y 15) 2) (N.shiftr z 6).
Definition sextet4 (z : N) : N := N.land z 63.

(** The standard encoding with padding, the inverse the decoder is checked
    against. *)
Fixpoint b64encode (content : list byte) : string :=
  match content with
  | [] => ""
  | [a] =>
      let x := Byte.to_N a in
      String (b64_char (sextet1 x)) (String (b64_char (sextet2 x 0)) "==")
  | [a; b] =>
      let x := Byte.to_N a in
      let y := Byte.to_N b in
      String (b64_char (sextet1 x))
        (String (b64_char (sextet2 x y)) (String (b64_char (sextet3 y 0)) "="))
  | a :: b :: c :: rest =>
      let x := Byte.to_N a in
      let y := Byte.to_N b in
      let z := Byte.to_N c in
      String (b64_char (sextet1 x))
        (String (b64_char (sextet2 x y))
           (String (b64_char (sextet3 y z))
              (String (b64_char (sextet4 z)) (b64encode rest))))
  end.

(** The numbers below [bound]. *)
Definition below (bound : nat) : list N := map N.of_nat (seq 0 bound).

(** Induction over a list three elements at a time. *)
Definition list_ind3 {A} (P : list A -> Prop)
  (H0 : P []) (H1 : forall a, P [a]) (H2 : forall a b, P [a; b])
  (H3 : forall a b c l, P l -> P (a :: b :: c :: l)) : forall l, P l :=
  fix go (l : list A) : P l :=
    match l with
    | [] => H0
    | [a] => H1 a
    | [a; b] => H2 a b
    | a :: b :: c :: r => H3 a b c r (go r)
    end.

(** Checks run over all sextets and all pairs of bytes. *)
Definition char_ok (s : N) : bool :=
  match b64_value (b64_char s) with
  | Some s' => (s' =? s)%N
  | None => false
  end && negb (Ascii.eqb (b64_char s) "=") && is_ascii (b64_char s).

Definition pair_ok (a b : N) : bool :=
  ((sextet1 a <? 64) && (sextet2 a b <? 64) && (sextet3 a b <? 64)
   && (sextet4 a <? 64)
   && (N.lor (N.shiftl (sextet1 a) 2) (N.shiftr (sextet2 a b) 4) =? a)
   && (N.land (sextet2 a b) 15 =? N.shiftr b 4)
   && (N.lor (N.shiftl (N.shiftr a 4) 4) (N.shiftr (sextet3 a b) 2) =? a)
   && (N.lor (N.shiftl (N.land (sextet3 a b) 3) 6) (sextet4 b) =? b))%N.

End Base64.
Import Base64.

(** ** The remote services and the clock *)

(** Outcome of one HTTP exchange as [requests] reports it. *)
Inductive reply (A : Type) : Type :=
| Replied (a : A)
| Fails (f : request_failure).
Arguments Replied {A} a.
Arguments Fails {A} f.

Definition of_reply {A} (r : reply A) : res A :=
  match r with
  | Replied a => Ok a
  | Fails f => Raise (RequestException f)
  end.

(** Everything the process talks to.  [status_ep id n] is the [n]-th
    [GET <base>/<id>/status] of a run (counted from 0): the time the exchange
    takes, in milliseconds, and its outcome.  [asset_ep url] gives the body and the
    [Content-Type] header of [GET url].  [spaces_put prompt content] stands
    for lines 270-276 of the upload handler (file name construction and
    [upload_to_spaces]): the public URL and the file name, or [None].
    [sleep_extra n] is what the operating system makes of the sleep that
    follows the [n]-th status request: the time, in milliseconds, by which
    it overruns the length asked for ([time.sleep] suspends for at least
    that length), or [None] when it does not take the length ([OSError],
    as for a deadline beyond the range of its clock).  All the time that
    passes during a call of [poll_until_complete] is counted under these
    two, the time the process spends on its own between the calls
    included. *)
Record remote : Type := {
  invoke_ep : json -> reply json;
  status_ep : json -> nat -> N * reply json;
  sleep_extra : nat -> option N;
  result_ep : json -> reply json;
  asset_ep : json -> reply (list byte * option string);
  spaces_put : json -> list byte -> res (option (string * string))
}.

Inductive event : Type :=
| EvStatus (request_id : json)   (* get_job_status *)
| EvResult (request_id : json)   (* get_job_result *)
| EvNow (t : Z)                  (* time.time() *)
| EvSleep (d : Z).               (* time.sleep(d) *)

(** The clock, the number of status requests made so far, and the calls made
    so far, oldest first. *)
Record world : Type := {
  now : Z;
  polls : nat;
  trace : list event
}.

Definition log (ev : event) (w : world) : world :=
  {| now := now w; polls := polls w; trace := trace w ++ [ev] |}.

(** [time.time()], in whole milliseconds. *)
Definition time_time (w : world) : Z * world := (now w, log (EvNow (now w)) w).

(** The longest sleep [time.sleep] takes, in milliseconds: the length is
    converted to a 64-bit count of nanoseconds. *)
Definition sleep_limit : Z := 9223372036854.

(** What [time.sleep(d)] raises before it asks the operating system: a
    length beyond the limit on either side (an infinite one too) is an
    [OverflowError], a negative length within it (and a NaN) a
    [ValueError]. *)
Definition sleep_error (d : Z) : option exn :=
  if (d <? - sleep_limit) || (sleep_limit <? d) then Some OverflowError
  else if d <? 0 then Some ValueError
  else None.

(** [time.sleep(d)]: the clock moves on by [d] and by what the sleep
    overruns. *)
Definition time_sleep (R : remote) (d : Z) (w : world) : res unit * world :=
  match sleep_error d with
  | Some e => (Raise e, w)
  | None =>
      match sleep_extra R (pred (polls w)) with
      | None => (Raise OSError, w)
      | Some over =>
          (Ok tt, {| now := now w + d + Z.of_N over;
                     polls := polls w;
                     trace := trace w ++ [EvSleep d] |})
      end
  end.

(** ** The inference flow (lines 83-124) *)

Fixpoint dict_set (k : string) (v : json) (d : list (string * json))
  : list (string * json) :=
  match d with
  | [] => [(k, v)]
  | (k', v') :: rest =>
      if (k' =? k)%string then (k, v) :: rest else (k', v') :: dict_set k v rest
  end.

Definition start_async_inference (R : remote) (model_id input_payload tags : json)
  : res json :=
  let body := [("model_id", model_id); ("input", input_payload)] in
  let body := if truthy tags then dict_set "tags" tags body else body in
  of_reply (invoke_ep R (JDict body)).

Definition get_job_status (R : remote) (request_id : json) (w : world)
  : res json * world :=
  let '(took, r) := status_ep R request_id (polls w) in
  (of_reply r,
   {| now := now w + Z.of_N took; polls := S (polls w);
      trace := trace w ++ [EvStatus request_id] |}).

Definition get_job_result (R : remote) (request_id : json) (w : world)
  : res json * world :=
  (of_reply (result_ep R request_id), log (EvResult request_id) w).

(** Line 115, the receiver of [.upper()]:
    [status_json.get("status") or status_json.get("state") or ""].
    [.get] needs a dict and [.upper] a [str]; anything else is an
    [AttributeError]. *)
Definition status_text (status_json : json) : res string :=
  match status_json with
  | JDict d =>
      match py_or (py_or (dict_get "status" d) (dict_get "state" d)) (JStr "") with
      | JStr s => Ok s
      | _ => Raise AttributeError
      end
  | _ => Raise AttributeError
  end.

(** Line 115 *)
Definition status_val_of (status_json : json) : res string :=
  s <- status_text status_json ;; Ok (upper s).

Definition success_words : list string := ["COMPLETE"; "SUCCEEDED"; "SUCCESS"].
Definition failure_words : list string := ["FAILED"; "ERROR"].

(** What one turn of the [while True] loop does: leave the function with a
    value or an exception, or go round again. *)
Inductive step : Type :=
| Done (r : res json)
| Again.

(** Lines 114-124, one turn of the loop. *)
Definition poll_iteration (R : remote) (request_id : json)
    (timeout_seconds poll_interval start : Z) (w : world) : step * world :=
  let '(r, w1) := get_job_status R request_id w in
  match r with
  | Raise e => (Done (Raise e), w1)
  | Ok status_json =>
      match status_val_of status_json with
      | Raise e => (Done (Raise e), w1)
      | Ok status_val =>
          if in_tuple status_val success_words then
            let '(r', w2) := get_job_result R request_id w1 in (Done r', w2)
          else if in_tuple status_val failure_words then
            (Done (Raise (RuntimeError status_json)), w1)
          else
            let '(t, w2) := time_time w1 in
            if t - start >? 1000 * timeout_seconds then
              (Done (Raise (TimeoutError timeout_seconds)), w2)
            else
              match time_sleep R poll_interval w2 with
              | (Raise e, w3) => (Done (Raise e), w3)
              | (Ok _, w3) => (Again, w3)
              end
      end
  end.

(** The loop, cut off after [fuel] turns ([None] when they are used up). *)
Fixpoint poll_loop (fuel : nat) (R : remote) (request_id : json)
    (timeout_seconds poll_interval start : Z) (w : world)
  : option (res json * world) :=
  match fuel with
  | O => None
  | S fuel' =>
      match poll_iteration R request_id timeout_seconds poll_interval start w with
      | (Done r, w') => Some (r, w')
      | (Again, w') =>
          poll_loop fuel' R request_id timeout_seconds poll_interval start w'
      end
  end.

Definition poll_until_complete (fuel : nat) (R : remote) (request_id : json)
    (timeout_seconds poll_interval : Z) (w : world)
  : option (res json * world) :=
  let '(start, w0) := time_time w in
  poll_loop fuel R request_id timeout_seconds poll_interval start w0.

(** ** Extraction of the image (lines 127-182) *)

(** [(img_bytes, content_type)]; [None] is the pair [(None, None)]. *)
Definition image : Type := option (list byte * string).

(** [requests.get(url)], [raise_for_status()], then the body with the
    [Content-Type] header, [image/png] when the header is missing. *)
Definition download (R : remote) (url : json) : res image :=
  r <- of_reply (asset_ep R url) ;;
  Ok (Some (fst r, match snd r with Some ct => ct | None => "image/png" end)).

Definition decode_inline (b64data : json) : res image :=
  b <- b64decode b64data ;; Ok (Some (b, "image/png")).

Definition is_str (v : json) : bool :=
  match v with JStr _ => true | _ => false end.

(** Lines 144-159: what the first element of the output list yields, [None]
    when control falls through to the search for a nested URL. *)
Definition from_output (R : remote) (output : json) : option (res image) :=
  match output with
  | JList (JDict item :: _) =>
      if truthy (dict_get "url" item) then
        Some (download R (dict_get "url" item))
      else if truthy (dict_get "base64" item) || truthy (dict_get "b64" item) then
        Some (decode_inline (py_or (dict_get "base64" item) (dict_get "b64" item)))
      else if truthy (dict_get "image" item) && is_str (dict_get "image" item) then
        Some (decode_inline (dict_get "image" item))
      else None
  | _ => None
  end.

(** [isinstance(v, str) and v.startswith("http")] *)
Definition http_str (v : json) : option string :=
  match v with
  | JStr s => if startswith s "http" then Some s else None
  | _ => None
  end.

(** [if found:] on a value that is [None] or a [str] *)
Definition found_truthy (found : option string) : bool :=
  match found with
  | Some s => negb (s =? "")%string
  | None => false
  end.

(** Lines 161-174.  A dict is walked in insertion order, a list in index
    order; a value that is neither yields [None]. *)
Fixpoint find_first_url (obj : json) : option string :=
  match obj with
  | JDict d =>
      (fix items (d : list (string * json)) : option string :=
         match d with
         | [] => None
         | (_, v) :: rest =>
             match http_str v with
             | Some s => Some s
             | None =>
                 let found := find_first_url v in
                 if found_truthy found then found else items rest
             end
         end) d
  | JList l =>
      (fix elems (l : list json) : option string :=
         match l with
         | [] => None
         | el :: rest =>
             let found := find_first_url el in
             if found_truthy found then found else elems rest
         end) l
  | _ => None
  end.

Definition extract_image_bytes_from_result (R : remote) (result_json : json)
  : res image :=
  match result_json with
  | JDict d =>
      let url := dict_get "url" d in
      if truthy url then download R url
      else
        let output :=
          py_or (py_or (dict_get "output" d) (dict_get "outputs" d))
                (dict_get "results" d) in
        match from_output R output with
        | Some r => r
        | None =>
            let any_url := find_first_url result_json in
            if found_truthy any_url then
              match any_url with
              | Some u => download R (JStr u)
              | None => Ok None
              end
            else Ok None
        end
  | _ => Raise AttributeError
  end.

(** *** The search as the specification words it

    Depth-first over mappings (insertion order) and sequences (index order),
    returning the first string value that begins with [http], wherever it
    sits. *)
Fixpoint spec_first_url (obj : json) : option string :=
  match obj with
  | JStr s => if startswith s "http" then Some s else None
  | JDict d =>
      (fix items (d : list (string * json)) : option string :=
         match d with
         | [] => None
         | (_, v) :: rest =>
             match spec_first_url v with
             | Some s => Some s
             | None => items rest
             end
         end) d
  | JList l =>
      (fix elems (l : list json) : option string :=
         match l with
         | [] => None
         | el :: rest =>
             match spec_first_url el with
             | Some s => Some s
             | None => elems rest
             end
         end) l
  | _ => None
  end.

(** Some string value of the tree begins with [http]. *)
Fixpoint has_http (obj : json) : bool :=
  match obj with
  | JStr s => startswith s "http"
  | JList l => existsb has_http l
  | JDict d => existsb (fun kv => has_http (snd kv)) d
  | _ => false
  end.

(** No list of the tree holds, as an element of its own, a string that
    begins with [http]. *)
Fixpoint no_url_elements (obj : json) : bool :=
  match obj with
  | JList l =>
      forallb (fun el => match http_str el with
                         | Some _ => false
                         | None => no_url_elements el
                         end) l
  | JDict d => forallb (fun kv => no_url_elements (snd kv)) d
  | _ => true
  end.

(** A value under [output], [outputs] or [results] that strategy 2 can use:
    a non-empty list whose first element is a dict with a true [url],
    [base64] or [b64], or with a non-empty string under [image]. *)
Definition usable_output (output : json) : bool :=
  match output with
  | JList (JDict item :: _) =>
      truthy (dict_get "url" item)
      || truthy (dict_get "base64" item) || truthy (dict_get "b64" item)
      || (truthy (dict_get "image" item) && is_str (dict_get "image" item))
  | _ => false
  end.

(** ** The route handlers (lines 189-291) *)

Record config : Type := {
  DO_MODEL_ACCESS_KEY : option string;
  DEFAULT_POLL_INTERVAL : Z;     (* milliseconds *)
  DEFAULT_POLL_TIMEOUT : Z       (* seconds *)
}.

(** [not DO_MODEL_ACCESS_KEY] *)
Definition key_missing (cfg : config) : bool :=
  match DO_MODEL_ACCESS_KEY cfg with
  | Some k => (k =? "")%string
  | None => true
  end.

(** What a JSON error body carries besides its [error] text: the text
    [str(e)] of the exception caught under [details], the submit response
    under [response], or the job result under [result].  [Details e] stands
    for the text of [e]; that text is made by the library that raised [e],
    two exceptions may have the same, and no property below reads it. *)
Inductive extra : Type :=
| NoExtra
| Details (e : exn)
| RawResponse (start_resp : json)
| RawResult (final_result : json).

Inductive response : Type :=
| SendFile (content : list byte) (mimetype : string)
| Uploaded (url filename : string)
| JsonError (status : Z) (error : string) (more : extra)
| Unhandled (e : exn).   (* raised outside the [try] *)

(** [d.get(k, default)] *)
Definition dict_get_default (k : string) (default : json)
    (d : list (string * json)) : json :=
  if has_key k d then dict_get k d else default.

(** [{"prompt": prompt, **options}] *)
Definition build_input (prompt options : json) : res json :=
  match options with
  | JDict items =>
      Ok (JDict (fold_left (fun acc kv => dict_set (fst kv) (snd kv) acc)
                           items [("prompt", prompt)]))
  | _ => Raise TypeError
  end.

(** Lines 213 and 259 *)
Definition request_id_of (start_resp : json) : res json :=
  match start_resp with
  | JDict d =>
      Ok (py_or (py_or (dict_get "request_id" d) (dict_get "id" d))
                (dict_get "requestId" d))
  | _ => Raise AttributeError
  end.

(** How the part the two handlers share (lines 209-224 and 257-268) ends when
    it does not raise: with one of the two early error returns, or with the
    image. *)
Inductive flow : Type :=
| Malformed (start_resp : json)
| NoImage (final_result : json)
| Got (img_bytes : list byte) (content_type : string).

(** Lines 222-224 and 266-268; [not img_bytes] holds of [None] and of the
    empty bytes. *)
Definition after_poll (R : remote) (final_result : json) : res flow :=
  img <- extract_image_bytes_from_result R final_result ;;
  match img with
  | Some (b :: bs, ct) => Ok (Got (b :: bs) ct)
  | _ => Ok (NoImage final_result)
  end.

Definition inference (cfg : config) (R : remote) (fuel : nat)
    (prompt model_id options : json) (w : world) : option (res flow) :=
  match build_input prompt options with
  | Raise e => Some (Raise e)
  | Ok input_payload =>
  match start_async_inference R model_id input_payload JNull with
  | Raise e => Some (Raise e)
  | Ok start_resp =>
  match request_id_of start_resp with
  | Raise e => Some (Raise e)
  | Ok request_id =>
      if negb (truthy request_id) then Some (Ok (Malformed start_resp))
      else
        match poll_until_complete fuel R request_id
                (DEFAULT_POLL_TIMEOUT cfg) (DEFAULT_POLL_INTERVAL cfg) w with
        | None => None
        | Some (Raise e, _) => Some (Raise e)
        | Some (Ok final_result, _) => Some (after_poll R final_result)
        end
  end end end.

(** The [except] clauses of [generate_image] (lines 228-236) *)
Definition generate_image_except (e : exn) : response :=
  match e with
  | TimeoutError _ => JsonError 504 "Inference job timed out" (Details e)
  | RequestException (HTTPError _) =>
      JsonError 502 "HTTP error during inference" (Details e)
  | _ => JsonError 500 "Failed to generate image" (Details e)
  end.

(** The [except] clauses of [upload_image_to_spaces] (lines 286-291) *)
Definition upload_image_to_spaces_except (e : exn) : response :=
  match e with
  | TimeoutError _ => JsonError 504 "Inference job timed out" (Details e)
  | _ => JsonError 500 "Failed to generate or upload image" (Details e)
  end.

(** What [generate_image] answers once the shared part has ended. *)
Definition generate_image_finish (o : res flow) : response :=
  match o with
  | Raise e => generate_image_except e
  | Ok (Got img_bytes content_type) =>
      SendFile img_bytes
        (if (content_type =? "")%string then "image/png" else content_type)
  | Ok (Malformed start_resp) =>
      JsonError 500 "Unexpected async-invoke response" (RawResponse start_resp)
  | Ok (NoImage final_result) =>
      JsonError 500 "No image found in inference result" (RawResult final_result)
  end.

(** What [upload_image_to_spaces] answers once the shared part has ended. *)
Definition upload_image_to_spaces_finish (R : remote) (prompt : json)
    (o : res flow) : response :=
  match o with
  | Raise e => upload_image_to_spaces_except e
  | Ok (Got img_bytes _) =>
      match spaces_put R prompt img_bytes with
      | Raise e => upload_image_to_spaces_except e
      | Ok (Some (url, filename)) => Uploaded url filename
      | Ok None =>
          JsonError 500 "Failed to upload image to DigitalOcean Spaces" NoExtra
      end
  | Ok (Malformed start_resp) =>
      JsonError 500 "Unexpected async-invoke response" (RawResponse start_resp)
  | Ok (NoImage final_result) =>
      JsonError 500 "No image found in inference result" (RawResult final_result)
  end.

(** The part before the [try], the same in both handlers, once
    [request.json] has given the value [request_json]: the key and prompt
    guards.  [inl] is an early answer, [inr] the prompt, the model and the
    options. *)
Definition read_request (cfg : config) (request_json : json)
  : response + (json * json * json) :=
  if key_missing cfg then
    inl (JsonError 500 "Server not configured with DO_MODEL_ACCESS_KEY" NoExtra)
  else
    match py_or request_json (JDict []) with
    | JDict data =>
        let prompt := dict_get "prompt" data in
        let model_id :=
          dict_get_default "model_id" (JStr "fal-ai/flux/schnell") data in
        let options :=
          py_or (dict_get_default "options" (JDict []) data) (JDict []) in
        if negb (truthy prompt) then
          inl (JsonError 400 "Prompt is required" NoExtra)
        else inr (prompt, model_id, options)
    | _ => inl (Unhandled AttributeError)
    end.

Definition generate_image (cfg : config) (R : remote) (fuel : nat)
    (request_json : json) (w : world) : option response :=
  match read_request cfg request_json with
  | inl r => Some r
  | inr (prompt, model_id, options) =>
      option_map generate_image_finish
        (inference cfg R fuel prompt model_id options w)
  end.

Definition upload_image_to_spaces (cfg : config) (R : remote) (fuel : nat)
    (request_json : json) (w : world) : option response :=
  match read_request cfg request_json with
  | inl r => Some r
  | inr (prompt, model_id, options) =>
      option_map (upload_image_to_spaces_finish R prompt)
        (inference cfg R fuel prompt model_id options w)
  end.

(** [request.json] (lines 199 and 248), which is read outside the [try]:
    the value Flask parsed from the body, [None] included, or the
    [HTTPException] it raises for a body it does not take as JSON
    ([BadRequest], 400, or [UnsupportedMediaType], 415), which Flask answers
    by itself. *)
Inductive request_body : Type :=
| Parsed (request_json : json)
| NotParsed (code : Z).

(** [generate_image] from the request as it arrives: the key guard of line
    196 comes before [request.json] is read. *)
Definition generate_image_view (cfg : config) (R : remote) (fuel : nat)
    (body : request_body) (w : world) : option response :=
  match body with
  | Parsed request_json => generate_image cfg R fuel request_json w
  | NotParsed code =>
      if key_missing cfg then
        Some (JsonError 500 "Server not configured with DO_MODEL_ACCESS_KEY"
                        NoExtra)
      else Some (Unhandled (HTTPException code))
  end.

(** ** The failure taxonomy of the specification *)

Inductive failure_kind : Type :=
| PollTimeoutError
| JobFailedError
| TransportError
| NoImageFoundError
| MalformedResponseError.

(** The taxonomy member an outcome of the shared part stands for: a polling
    deadline, a job the service reports failed, a request that failed, and
    the two early returns. *)
Definition kind_of (o : res flow) : option failure_kind :=
  match o with
  | Raise (TimeoutError _) => Some PollTimeoutError
  | Raise (RuntimeError _) => Some JobFailedError
  | Raise (RequestException _) => Some TransportError
  | Ok (NoImage _) => Some NoImageFoundError
  | Ok (Malformed _) => Some MalformedResponseError
  | _ => None
  end.

(** The machine-readable kind of an answer: HTTP status and [error] text. *)
Definition label (r : response) : option (Z * string) :=
  match r with
  | JsonError status error _ => Some (status, error)
  | _ => None
  end.

(** An outcome that is a request failure other than an HTTP status error. *)
Definition plain_transport (o : res flow) : bool :=
  match o with
  | Raise (RequestException (HTTPError _)) => false
  | Raise (RequestException _) => true
  | _ => false
  end.

Definition any_transport (o : res flow) : bool :=
  match o with
  | Raise (RequestException _) => true
  | _ => false
  end.

(** ** Vocabulary of the properties *)


(** Every status request for the job is answered, with a status that is in
    neither tuple of line 117 and line 120. *)
Definition never_terminal (R : remote) (request_id : json) : Prop :=
  forall n, exists payload status_val,
    snd (status_ep R request_id n) = Replied payload /\
    status_val_of payload = Ok status_val /\
    in_tuple status_val success_words = false /\
    in_tuple status_val failure_words = false.

(** A status payload with neither [status] nor [state], or with [null]
    under them ([.get] gives [None] in both cases). *)
Definition statusless (payload : json) : Prop :=
  exists d, payload = JDict d /\
    dict_get "status" d = JNull /\ dict_get "state" d = JNull.

(** Time the last status request made in [w] took. *)
Definition last_took (R : remote) (request_id : json) (w : world) : Z :=
  Z.of_N (fst (status_ep R request_id (pred (polls w)))).

(** Time by which the sleep before the last status request made in [w]
    overran. *)
Definition last_overran (R : remote) (w : world) : Z :=
  match sleep_extra R (pred (pred (polls w))) with
  | Some over => Z.of_N over
  | None => 0
  end.

(** The operating system takes every sleep of the run. *)
Definition sleeps_taken (R : remote) : Prop :=
  forall n, sleep_extra R n <> None.

(** A service whose status endpoint answers [status_json] every time, each
    exchange taking [took] milliseconds, and whose other endpoints answer
    [start_resp], [final_result] and [asset]. *)
Definition steady (took : N) (start_resp status_json final_result : json)
    (asset : reply (list byte * option string)) : remote := {|
  invoke_ep := fun _ => Replied start_resp;
  status_ep := fun _ _ => (took, Replied status_json);
  sleep_extra := fun _ => Some 0%N;
  result_ep := fun _ => Replied final_result;
  asset_ep := fun _ => asset;
  spaces_put := fun _ _ => Ok None
|}.

(** A job that stays [running]. *)
Definition running (took : N) : remote :=
  steady took (JDict [("request_id", JStr "abc")])
         (JDict [("status", JStr "running")])
         (JDict [("url", JStr "http://x/img.png")])
         (Replied ([x89%byte; x50%byte], Some "image/png")).

(** A job that stays [running] behind a service that answers at once,
    with every sleep of the process lasting [over] milliseconds longer than
    asked. *)
Definition oversleeping (over : N) : remote := {|
  invoke_ep := invoke_ep (running 0);
  status_ep := status_ep (running 0);
  sleep_extra := fun _ => Some over;
  result_ep := result_ep (running 0);
  asset_ep := asset_ep (running 0);
  spaces_put := spaces_put (running 0)
|}.

(** A service that fails every status request with [f]. *)
Definition unreachable (f : request_failure) : remote := {|
  invoke_ep := fun _ => Replied (JDict [("request_id", JStr "abc")]);
  status_ep := fun _ _ => (0%N, Fails f);
  sleep_extra := fun _ => Some 0%N;
  result_ep := fun _ => Fails f;
  asset_ep := fun _ => Fails f;
  spaces_put := fun _ _ => Ok None
|}.

(** A job the service reports under [status_json], with [final_result]
    behind the result endpoint. *)
Definition reporting (status_json final_result : json) : remote :=
  steady 0 (JDict [("request_id", JStr "abc")]) status_json final_result
         (Replied ([x89%byte; x50%byte], Some "image/png")).

(** Three spellings outside ASCII: [success] with a long s (U+017F) for its
    first letter, [success] with a sharp s (U+00DF) for its last two, and
    [failed] with a dotless i (U+0131). *)
Definition long_s_success : string :=
  String "197"%char (String "191"%char "uccess").
Definition sharp_s_success : string :=
  ("succe" ++ String "195"%char (String "159"%char ""))%string.
Definition dotless_i_failed : string :=
  ("fa" ++ String "196"%char (String "177"%char "led"))%string.

(** The classification as the specification states it: a status that
    spells, in some mix of letter cases, a word of line 117 is a success,
    one that so spells a word of line 120 is a failure, and every other
    string sends the turn on to the timeout check and the sleep. *)
Definition letter_case_classification : Prop :=
  forall (R : remote) (request_id : json)
         (timeout_seconds poll_interval start : Z) (w : world)
         (took : N) (payload : json) (s : string),
    status_ep R request_id (polls w) = (took, Replied payload) ->
    status_text payload = Ok s ->
    let outcome :=
      fst (poll_iteration R request_id timeout_seconds poll_interval start w) in
    (spells_one_of s success_words = true ->
       outcome = Done (of_reply (result_ep R request_id))) /\
    (spells_one_of s failure_words = true ->
       outcome = Done (Raise (RuntimeError payload))) /\
    (spells_one_of s success_words = false ->
     spells_one_of s failure_words = false ->
       outcome =
         if now w + Z.of_N took - start >? 1000 * timeout_seconds
         then Done (Raise (TimeoutError timeout_seconds))
         else match sleep_error poll_interval, sleep_extra R (polls w) with
              | Some e, _ => Done (Raise e)
              | None, None => Done (Raise OSError)
              | None, Some _ => Again
              end).

(** The handler [finish] keeps the kinds of failure apart: outcomes of two
    different kinds get answers that differ in HTTP status or in [error]
    text. *)
Definition kinds_kept_apart (finish : res flow -> response) : Prop :=
  forall o1 o2 k1 k2,
    kind_of o1 = Some k1 -> kind_of o2 = Some k2 -> k1 <> k2 ->
    label (finish o1) <> label (finish o2).

(** The error policy as the specification states it: at both handlers no
    two kinds of failure are answered alike. *)
Definition failure_kinds_distinct : Prop :=
  kinds_kept_apart generate_image_finish /\
  forall R prompt, kinds_kept_apart (upload_image_to_spaces_finish R prompt).


(** The priority among the identifier keys as the specification states it:
    when [request_id] is present, its value is the job identifier. *)
Definition first_present_key_wins : Prop :=
  forall d, has_key "request_id" d = true ->
    request_id_of (JDict d) = Ok (dict_get "request_id" d).

Definition boot : world := {| now := 0; polls := 0; trace := [] |}.

Definition defaults : config := {|
  DO_MODEL_ACCESS_KEY := Some "key";
  DEFAULT_POLL_INTERVAL := 2000;
  DEFAULT_POLL_TIMEOUT := 60
|}.

Definition all_ascii : list ascii := map ascii_of_nat (seq 0 256).

(** ** Vocabulary of the further properties *)

Definition is_status (ev : event) : bool :=
  match ev with EvStatus _ => true | _ => false end.

Definition is_sleep (ev : event) : bool :=
  match ev with EvSleep _ => true | _ => false end.

Definition is_result (ev : event) : bool :=
  match ev with EvResult _ => true | _ => false end.

(** Number of the calls of one sort in a list of calls. *)
Definition count (sort : event -> bool) (evs : list event) : nat :=
  List.length (filter sort evs).

(** The strings that begin with [http] and are the value of some key, in
    the order in which [find_first_url] walks the tree. *)
Fixpoint url_values (obj : json) : list string :=
  match obj with
  | JDict d =>
      flat_map (fun kv =>
                  match http_str (snd kv) with
                  | Some s => [s]
                  | None => url_values (snd kv)
                  end) d
  | JList l => flat_map url_values l
  | _ => []
  end.

Definition in_alphabet (c : ascii) : bool :=
  match b64_value c with Some _ => true | None => false end.

(** The characters the decoder looks at: the alphabet and the pad. *)
Fixpoint significant (s : string) : string :=
  match s with
  | EmptyString => EmptyString
  | String c rest =>
      if Ascii.eqb c "=" || in_alphabet c then String c (significant rest)
      else significant rest
  end.

Definition all_alphabet (s : string) : bool :=
  forallb in_alphabet (list_ascii_of_string s).

Definition ascii_only (s : string) : bool :=
  forallb is_ascii (list_ascii_of_string s).

(** Line 141: the first true value among [output], [outputs] and
    [results]. *)
Definition output_of (d : list (string * json)) : json :=
  py_or (py_or (dict_get "output" d) (dict_get "outputs" d))
        (dict_get "results" d).

(** The places of the result [JDict d] that hold the URL of a download: the
    top-level [url], the [url] of the first element under the output key,
    and the URL the search finds. *)
Definition url_place (d : list (string * json)) (url : json) : Prop :=
  url = dict_get "url" d \/
  (exists item rest,
     output_of d = JList (JDict item :: rest) /\ url = dict_get "url" item) \/
  (exists u, find_first_url (JDict d) = Some u /\ url = JStr u).

(** The places that hold inline data: [base64], [b64] and [image] of the
    first element under the output key. *)
Definition inline_place (d : list (string * json)) (b64data : json) : Prop :=
  exists item rest,
    output_of d = JList (JDict item :: rest) /\
    (b64data = dict_get "base64" item \/ b64data = dict_get "b64" item \/
     b64data = dict_get "image" item).

(** Keys of a dict, in order. *)
Definition keys (d : list (string * json)) : list string := map fst d.

(** *** The file name of an upload (line 273) *)

Definition is_digit (c : ascii) : bool :=
  let n := N_of_ascii c in ((48 <=? n) && (n <=? 57))%N.

(** [c.isalnum()] for an ASCII character. *)
Definition isalnum (c : ascii) : bool := is_upper c || is_lower c || is_digit c.

(** [c.isspace()] for an ASCII character: tab to carriage return, the four
    separators, and the space. *)
Definition isspace (c : ascii) : bool :=
  let n := N_of_ascii c in
  (((9 <=? n) && (n <=? 13)) || ((28 <=? n) && (n <=? 31)) || (n =? 32))%N.

(** [c.isalnum() or c in (' ', '-', '_')] *)
Definition kept_in_name (c : ascii) : bool :=
  isalnum c || Ascii.eqb c " " || Ascii.eqb c "-" || Ascii.eqb c "_".

Fixpoint filter_string (keep : ascii -> bool) (s : string) : string :=
  match s with
  | EmptyString => EmptyString
  | String c rest =>
      if keep c then String c (filter_string keep rest)
      else filter_string keep rest
  end.

(** [s.rstrip()] *)
Fixpoint rstrip (s : string) : string :=
  match s with
  | EmptyString => EmptyString
  | String c rest =>
      match rstrip rest with
      | EmptyString => if isspace c then EmptyString else String c EmptyString
      | rest' => String c rest'
      end
  end.

(** [s.replace(' ', '_')] *)
Fixpoint underscore_spaces (s : string) : string :=
  match s with
  | EmptyString => EmptyString
  | String c rest =>
      String (if Ascii.eqb c " " then "_"%char else c) (underscore_spaces rest)
  end.

(** Line 273, for a prompt that is an ASCII [str]; for other characters
    [isalnum] and [rstrip] of Python consult the Unicode tables. *)
Definition safe_prompt (prompt : string) : string :=
  underscore_spaces
    (rstrip (filter_string kept_in_name (substring 0 30 prompt))).

Definition name_char (c : ascii) : bool :=
  isalnum c || Ascii.eqb c "-" || Ascii.eqb c "_".

(** A result that carries the image inline:
    [{"output": [{"base64": b64data}]}]. *)
Definition inline_result (b64data : json) : json :=
  JDict [("output", JList [JDict [("base64", b64data)]])].

(** Every character of [s] satisfies [p]. *)
Definition chars_all (p : ascii -> bool) (s : string) : bool :=
  forallb p (list_ascii_of_string s).

(** Bytes the decoding loop has written for the current quad at each
    position of it. *)
Definition written_in_quad (quad_pos : N) : nat :=
  match quad_pos with
  | 0%N | 1%N => 0
  | 2%N => 1
  | _ => 2
  end.

(** The calls of a run that goes on asking for the job until the deadline:
    turns of a status request, a reading of the clock that is not past the
    deadline, and a sleep of [interval]; then one more status request and a
    reading that is not before the deadline.  A reading that falls on the
    deadline itself may be of either sort. *)
Inductive polled_until_deadline (request_id : json) (start limit interval : Z)
  : list event -> Prop :=
| last_round (t : Z) :
    limit <= t - start ->
    polled_until_deadline request_id start limit interval
      [EvStatus request_id; EvNow t]
| round (t : Z) (rest : list event) :
    t - start <= limit ->
    polled_until_deadline request_id start limit interval rest ->
    polled_until_deadline request_id start limit interval
      (EvStatus request_id :: EvNow t :: EvSleep interval :: rest).

(** The service [R] with an object store that accepts every upload and
    answers [url] and [filename]. *)
Definition storing (R : remote) (url filename : string) : remote := {|
  invoke_ep := invoke_ep R;
  status_ep := status_ep R;
  sleep_extra := sleep_extra R;
  result_ep := result_ep R;
  asset_ep := asset_ep R;
  spaces_put := fun _ _ => Ok (Some (url, filename))
|}.

(** ** Properties of the polling loop *)

Lemma sleep_error_none (d : Z) :
  0 <= d <= sleep_limit -> sleep_error d = None.
Proof.
  intros [Hlo Hhi]. unfold sleep_error.
  destruct (d <? - sleep_limit) eqn:H1;
    [apply Z.ltb_lt in H1; unfold sleep_limit in *; lia|].
  destruct (sleep_limit <? d) eqn:H2; [apply Z.ltb_lt in H2; lia|].
  destruct (d <? 0) eqn:H3; [apply Z.ltb_lt in H3; lia|].
  reflexivity.
Qed.

Lemma sleep_error_negative (d : Z) :
  - sleep_limit <= d < 0 -> sleep_error d = Some ValueError.
Proof.
  intros [Hlo Hhi]. unfold sleep_error.
  destruct (d <? - sleep_limit) eqn:H1; [apply Z.ltb_lt in H1; lia|].
  destruct (sleep_limit <? d) eqn:H2;
    [apply Z.ltb_lt in H2; unfold sleep_limit in *; lia|].
  destruct (d <? 0) eqn:H3; [|apply Z.ltb_ge in H3; lia].
  reflexivity.
Qed.

Lemma sleep_error_beyond (d : Z) :
  d < - sleep_limit \/ sleep_limit < d -> sleep_error d = Some OverflowError.
Proof.
  intros H. unfold sleep_error.
  replace ((d <? - sleep_limit) || (sleep_limit <? d)) with true; [reflexivity|].
  symmetry; apply orb_true_iff.
  destruct H; [left | right]; apply Z.ltb_lt; assumption.
Qed.

Lemma sleep_error_cases (d : Z) (e : exn) :
  sleep_error d = Some e -> e = OverflowError \/ e = ValueError.
Proof.
  unfold sleep_error.
  destruct (_ || _); [intros H; inversion H; auto|].
  destruct (d <? 0); [intros H; inversion H; auto | discriminate].
Qed.

Section Polling.

Variable R : remote.
Variable request_id : json.
Variables timeout_seconds poll_interval start : Z.

Local Abbreviation iteration :=
  (poll_iteration R request_id timeout_seconds poll_interval start).

Lemma in_tuple_words_disjoint (s : string) :
  in_tuple s failure_words = true -> in_tuple s success_words = false.
Proof.
  unfold in_tuple, failure_words, success_words; simpl.
  rewrite !orb_false_r.
  intros H; apply orb_prop in H.
  destruct H as [H | H]; apply String.eqb_eq in H; subst s; reflexivity.
Qed.

(** A turn whose status is in the success tuple fetches the result, whatever
    the clock says. *)
Lemma iteration_success (w : world) took payload status_val :
  status_ep R request_id (polls w) = (took, Replied payload) ->
  status_val_of payload = Ok status_val ->
  in_tuple status_val success_words = true ->
  iteration w =
    (Done (of_reply (result_ep R request_id)),
     {| now := now w + Z.of_N took; polls := S (polls w);
        trace := (trace w ++ [EvStatus request_id]) ++ [EvResult request_id] |}).
Proof.
  intros Hep Hval Hin.
  unfold poll_iteration, get_job_status. rewrite Hep. cbn [of_reply].
  rewrite Hval, Hin. reflexivity.
Qed.

(** A turn whose status is in the failure tuple raises at once. *)
Lemma iteration_failure (w : world) took payload status_val :
  status_ep R request_id (polls w) = (took, Replied payload) ->
  status_val_of payload = Ok status_val ->
  in_tuple status_val failure_words = true ->
  iteration w =
    (Done (Raise (RuntimeError payload)),
     {| now := now w + Z.of_N took; polls := S (polls w);
        trace := trace w ++ [EvStatus request_id] |}).
Proof.
  intros Hep Hval Hin.
  unfold poll_iteration, get_job_status. rewrite Hep. cbn [of_reply].
  rewrite Hval, (in_tuple_words_disjoint _ Hin), Hin. reflexivity.
Qed.

(** A turn whose status is in neither tuple reads the clock and then either
    raises [TimeoutError] or sleeps. *)
Lemma iteration_pending (w : world) took payload status_val :
  status_ep R request_id (polls w) = (took, Replied payload) ->
  status_val_of payload = Ok status_val ->
  in_tuple status_val success_words = false ->
  in_tuple status_val failure_words = false ->
  let t := now w + Z.of_N took in
  let checked := (trace w ++ [EvStatus request_id]) ++ [EvNow t] in
  iteration w =
    if t - start >? 1000 * timeout_seconds then
      (Done (Raise (TimeoutError timeout_seconds)),
       {| now := t; polls := S (polls w); trace := checked |})
    else
      match sleep_error poll_interval, sleep_extra R (polls w) with
      | Some e, _ =>
          (Done (Raise e),
           {| now := t; polls := S (polls w); trace := checked |})
      | None, None =>
          (Done (Raise OSError),
           {| now := t; polls := S (polls w); trace := checked |})
      | None, Some over =>
          (Again,
           {| now := t + poll_interval + Z.of_N over;
              polls := S (polls w);
              trace := checked ++ [EvSleep poll_interval] |})
      end.
Proof.
  intros Hep Hval Hs Hf.
  unfold poll_iteration, get_job_status. rewrite Hep. cbn [of_reply].
  rewrite Hval, Hs, Hf.
  unfold time_time, time_sleep, log; cbn [now polls trace pred].
  destruct (_ >? _); [reflexivity|].
  destruct (sleep_error poll_interval); [reflexivity|].
  destruct (sleep_extra R (polls w)); reflexivity.
Qed.



End Polling.

Section PollingLoop.

Variable R : remote.
Variable request_id : json.
Variables timeout_seconds poll_interval start : Z.

Local Abbreviation loop n :=
  (poll_loop n R request_id timeout_seconds poll_interval start).


(** A value the loop returns is the body the result endpoint answered, and
    the request for it is the last call made. *)
Lemma loop_returns_result (fuel : nat) : forall w v w',
  loop fuel w = Some (Ok v, w') ->
  result_ep R request_id = Replied v /\
  exists earlier, trace w' = earlier ++ [EvResult request_id].
Proof.
  induction fuel as [|fuel IH]; intros w v w' H; [discriminate|].
  cbn [poll_loop] in H.
  unfold poll_iteration, get_job_status in H.
  destruct (status_ep R request_id (polls w)) as [took [payload | f]];
    cbn [of_reply] in H; [|discriminate].
  destruct (status_val_of payload) as [sv | e]; [|discriminate].
  destruct (in_tuple sv success_words).
  { unfold get_job_result, log in H; cbn [now polls trace] in H.
    destruct (result_ep R request_id) as [body | f]; cbn [of_reply] in H;
      [|discriminate].
    inversion H; subst; cbn [trace]. split; [reflexivity|]. eauto. }
  destruct (in_tuple sv failure_words); [discriminate|].
  unfold time_time, time_sleep, log in H; cbn [now polls trace] in H.
  destruct (_ >? _); [discriminate|].
  destruct (sleep_error poll_interval); [discriminate|].
  destruct (sleep_extra R _); [|discriminate].
  eapply IH; eassumption.
Qed.

Hypothesis pending : never_terminal R request_id.
Hypothesis interval_positive : 0 < poll_interval.
Hypothesis interval_sleepable : poll_interval <= sleep_limit.
Hypothesis taken : sleeps_taken R.

(** Against a job that never becomes terminal the loop ends, with enough
    turns, in [TimeoutError], and until then it goes on asking: each turn
    asks for the status, reads the clock and sleeps, and the turn whose
    reading is the first one later than the timeout raises.  That reading is
    no later than the timeout plus one sleep, what that sleep overran and
    the time the last status request took, when the loop was entered no
    later than the timeout plus one sleep and what it overran. *)
Lemma loop_deadline (fuel : nat) : forall w,
  (Z.to_nat (1000 * timeout_seconds + 1 - (now w - start)) < fuel)%nat ->
  exists w' calls,
    loop fuel w = Some (Raise (TimeoutError timeout_seconds), w') /\
    trace w' = trace w ++ calls /\
    polled_until_deadline request_id start (1000 * timeout_seconds)
                          poll_interval calls /\
    last calls (EvSleep 0) = EvNow (now w') /\
    1000 * timeout_seconds < now w' - start /\
    (now w - start <=
       1000 * timeout_seconds + poll_interval
       + match sleep_extra R (pred (polls w)) with
         | Some over => Z.of_N over
         | None => 0
         end ->
     now w' - start <=
       1000 * timeout_seconds + poll_interval
       + last_overran R w' + last_took R request_id w').
Proof.
  induction fuel as [|fuel IH]; intros w Hfuel; [lia|].
  destruct (pending (polls w)) as (payload & sv & Hep & Hval & Hs & Hf).
  destruct (status_ep R request_id (polls w)) as [took rep] eqn:Hst.
  cbn [snd] in Hep; subst rep.
  cbn [poll_loop].
  rewrite (iteration_pending _ _ _ _ _ _ _ _ _ Hst Hval Hs Hf); cbv zeta.
  destruct (now w + Z.of_N took - start >? 1000 * timeout_seconds) eqn:Hgt.
  - apply Z.gtb_lt in Hgt.
    eexists; exists [EvStatus request_id; EvNow (now w + Z.of_N took)].
    split; [reflexivity|]. cbn [trace now].
    split; [rewrite <- app_assoc; reflexivity|].
    split; [apply last_round; lia|].
    split; [reflexivity|].
    split; [lia|].
    unfold last_took, last_overran; cbn [now polls pred].
    rewrite Hst; cbn [fst]. lia.
  - rewrite sleep_error_none by lia.
    destruct (sleep_extra R (polls w)) as [over|] eqn:Hover;
      [|exfalso; exact (taken _ Hover)].
    assert (Hle : now w + Z.of_N took - start <= 1000 * timeout_seconds).
    { rewrite Z.gtb_ltb in Hgt. apply Z.ltb_ge in Hgt. exact Hgt. }
    match goal with
    | |- exists w' calls, poll_loop _ _ _ _ _ _ ?w3 = _ /\ _ =>
        destruct (IH w3)
          as (w' & calls & Hrun & Htr & Hcalls & Hlast & Hlo & Hhi)
    end.
    + cbn [now]. lia.
    + exists w'.
      exists (EvStatus request_id :: EvNow (now w + Z.of_N took)
                :: EvSleep poll_interval :: calls).
      split; [exact Hrun|].
      split; [rewrite Htr; cbn [trace]; rewrite <- !app_assoc; reflexivity|].
      split; [apply round; assumption|].
      split; [destruct calls as [|ev calls]; [inversion Hcalls | exact Hlast]|].
      split; [exact Hlo|].
      intros _. apply Hhi. cbn [now polls pred]. rewrite Hover. lia.
Qed.

End PollingLoop.

Lemma statusless_status_val (payload : json) :
  statusless payload -> status_val_of payload = Ok "".
Proof.
  intros (d & -> & Hstatus & Hstate).
  unfold status_val_of, status_text. rewrite Hstatus, Hstate. reflexivity.
Qed.



(** The run against a status endpoint that answers at once, with sleeps
    that last 1.24 s each: the clock is checked at 0 s, 1.24 s, 2.48 s,
    3.72 s, 4.96 s and 6.2 s. *)
Lemma oversleeping_run :
  poll_until_complete 10 (oversleeping 240) (JStr "abc") 5 1000 boot =
  Some (Raise (TimeoutError 5),
        {| now := 6200; polls := 6;
           trace :=
             [EvNow 0;
              EvStatus (JStr "abc"); EvNow 0; EvSleep 1000;
              EvStatus (JStr "abc"); EvNow 1240; EvSleep 1000;
              EvStatus (JStr "abc"); EvNow 2480; EvSleep 1000;
              EvStatus (JStr "abc"); EvNow 3720; EvSleep 1000;
              EvStatus (JStr "abc"); EvNow 4960; EvSleep 1000;
              EvStatus (JStr "abc"); EvNow 6200] |}).
Proof. reflexivity. Qed.




(** ** Letter case of the status *)

Lemma all_ascii_complete (c : ascii) : In c all_ascii.
Proof.
  unfold all_ascii. rewrite <- (ascii_nat_embedding c).
  apply in_map, in_seq. pose proof (nat_ascii_bounded c). lia.
Qed.

Lemma upper_ascii_table :
  forallb (fun c =>
    forallb (fun d =>
      implb (is_upper d)
        (Bool.eqb (Ascii.eqb (upper_ascii c) d)
                  (Ascii.eqb c d || Ascii.eqb c (lower_ascii d))))
      all_ascii) all_ascii = true.
Proof. vm_compute. reflexivity. Qed.

(** A character goes to the capital [d] exactly when it is [d] or the small
    letter of [d]. *)
Lemma upper_ascii_eqb (c d : ascii) :
  is_upper d = true ->
  Ascii.eqb (upper_ascii c) d = Ascii.eqb c d || Ascii.eqb c (lower_ascii d).
Proof.
  intros Hd.
  pose proof upper_ascii_table as T.
  rewrite forallb_forall in T. specialize (T c (all_ascii_complete c)).
  rewrite forallb_forall in T. specialize (T d (all_ascii_complete d)).
  rewrite Hd in T. cbn [implb] in T. apply Bool.eqb_prop in T. exact T.
Qed.

Lemma upper_letters_eqb_same_word (w : string) : forall s,
  all_upper w = true -> String.eqb (upper_letters s) w = same_word s w.
Proof.
  unfold all_upper.
  induction w as [|d w IH]; intros [|c s] Hw; try reflexivity.
  cbn [list_ascii_of_string forallb] in Hw.
  apply andb_prop in Hw. destruct Hw as [Hd Hw].
  cbn [upper_letters same_word String.eqb].
  rewrite (upper_ascii_eqb c d Hd), (IH s Hw). reflexivity.
Qed.

Lemma upper_of_two_ascii (c d : ascii) :
  is_ascii c = true -> upper_of_two c d = None.
Proof.
  destruct c as [[] [] [] [] [] [] [] []]; intros H;
    try (vm_compute in H; discriminate H); reflexivity.
Qed.

Lemma upper_of_three_ascii (c d e : ascii) :
  is_ascii c = true -> upper_of_three c d e = None.
Proof.
  destruct c as [[] [] [] [] [] [] [] []]; intros H;
    try (vm_compute in H; discriminate H); reflexivity.
Qed.

(** An ASCII character is mapped by itself. *)
Lemma upper_ascii_head (c : ascii) (rest : string) :
  is_ascii c = true ->
  upper (String c rest) = String (upper_ascii c) (upper rest).
Proof.
  intros Hc.
  destruct rest as [|d rest1]; [reflexivity|].
  change (upper (String c (String d rest1))) with
    (match upper_of_two c d with
     | Some u => (u ++ upper rest1)%string
     | None =>
         match rest1 with
         | String e rest2 =>
             match upper_of_three c d e with
             | Some u => (u ++ upper rest2)%string
             | None => String (upper_ascii c) (upper (String d rest1))
             end
         | EmptyString => String (upper_ascii c) (upper (String d rest1))
         end
     end).
  rewrite (upper_of_two_ascii c d Hc).
  destruct rest1 as [|e rest2]; [reflexivity|].
  rewrite (upper_of_three_ascii c d e Hc). reflexivity.
Qed.

(** On a [str] of ASCII characters [upper] is the letter-by-letter map. *)
Lemma upper_ascii_only (s : string) :
  ascii_only s = true -> upper s = upper_letters s.
Proof.
  unfold ascii_only.
  induction s as [|c s IH]; intros H; [reflexivity|].
  cbn [list_ascii_of_string forallb] in H.
  apply andb_prop in H. destruct H as [Hc Hs].
  rewrite (upper_ascii_head c s Hc), (IH Hs). reflexivity.
Qed.

Lemma in_tuple_upper (ws : list string) (s : string) :
  ascii_only s = true ->
  forallb all_upper ws = true ->
  in_tuple (upper s) ws = spells_one_of s ws.
Proof.
  intros Hs. rewrite (upper_ascii_only s Hs).
  unfold in_tuple, spells_one_of.
  induction ws as [|w ws IH]; intros Hws; [reflexivity|].
  cbn [forallb] in Hws. apply andb_prop in Hws. destruct Hws as [Hw Hws].
  cbn [existsb].
  rewrite (upper_letters_eqb_same_word w s Hw), (IH Hws). reflexivity.
Qed.

(** C4 (as stated, refuted): every string that does not spell one of the
    five words in some mix of letter cases would send the turn on to the
    timeout check.  The status [success] written with a long s spells none
    of them, its upper case is [SUCCESS], and the turn fetches the result. *)
Lemma letter_case_classification_fails : ~ letter_case_classification.
Proof.
  intros claim.
  destruct (claim (reporting (JDict [("status", JStr long_s_success)])
                             (JDict [("url", JStr "http://x/img.png")]))
                  (JStr "abc") 60 2000 0 boot 0%N
                  (JDict [("status", JStr long_s_success)]) long_s_success
                  eq_refl eq_refl) as (_ & _ & H).
  specialize (H eq_refl eq_refl). vm_compute in H. discriminate H.
Qed.

(** C4 (amended): a turn of the loop that reads the status string [s]
    classifies it by its upper case: it fetches the result when [upper s] is
    COMPLETE, SUCCEEDED or SUCCESS, raises the job failure when it is FAILED
    or ERROR, and for every other string goes on to the timeout check and
    the sleep.  For a status of ASCII characters this is the comparison
    without regard to letter case: [upper s] is one of the words exactly
    when [s] spells it in some mix of cases.  Outside ASCII the upper case
    of Unicode counts, so that [success] with a long s or a sharp s is a
    success and [failed] with a dotless i a failure. *)
Theorem status_classification (R : remote) (request_id : json)
    (timeout_seconds poll_interval start : Z) (w : world)
    (took : N) (payload : json) (s : string) :
  status_ep R request_id (polls w) = (took, Replied payload) ->
  status_text payload = Ok s ->
  let outcome :=
    fst (poll_iteration R request_id timeout_seconds poll_interval start w) in
  ((in_tuple (upper s) success_words = true ->
      outcome = Done (of_reply (result_ep R request_id))) /\
   (in_tuple (upper s) failure_words = true ->
      outcome = Done (Raise (RuntimeError payload))) /\
   (in_tuple (upper s) success_words = false ->
    in_tuple (upper s) failure_words = false ->
      outcome =
        if now w + Z.of_N took - start >? 1000 * timeout_seconds
        then Done (Raise (TimeoutError timeout_seconds))
        else match sleep_error poll_interval, sleep_extra R (polls w) with
             | Some e, _ => Done (Raise e)
             | None, None => Done (Raise OSError)
             | None, Some _ => Again
             end)) /\
  (ascii_only s = true ->
     in_tuple (upper s) success_words = spells_one_of s success_words /\
     in_tuple (upper s) failure_words = spells_one_of s failure_words) /\
  (upper long_s_success = "SUCCESS" /\
   upper sharp_s_success = "SUCCESS" /\
   upper dotless_i_failed = "FAILED").
Proof.
  intros Hep Htext outcome; subst outcome.
  assert (Hval : status_val_of payload = Ok (upper s))
    by (unfold status_val_of; rewrite Htext; reflexivity).
  split; [split; [|split] | split].
  - intros Hin.
    rewrite (iteration_success _ _ _ _ _ _ _ _ _ Hep Hval Hin). reflexivity.
  - intros Hin.
    rewrite (iteration_failure _ _ _ _ _ _ _ _ _ Hep Hval Hin). reflexivity.
  - intros Hs Hf.
    rewrite (iteration_pending _ _ _ _ _ _ _ _ _ Hep Hval Hs Hf); cbv zeta.
    destruct (_ >? _); [reflexivity|].
    destruct (sleep_error poll_interval); [reflexivity|].
    destruct (sleep_extra R (polls w)); reflexivity.
  - intros Hascii. split; apply in_tuple_upper; auto.
  - repeat split.
Qed.

Lemma status_classification_witness :
  fst (poll_iteration (reporting (JDict [("status", JStr "Succeeded")])
                                 (JDict [("url", JStr "http://x/img.png")]))
         (JStr "abc") 60 2000 0 boot)
  = Done (Ok (JDict [("url", JStr "http://x/img.png")])).
Proof.
  apply (proj1 (proj1 (status_classification
                  (reporting (JDict [("status", JStr "Succeeded")])
                             (JDict [("url", JStr "http://x/img.png")]))
                  (JStr "abc") 60 2000 0 boot 0%N
                  (JDict [("status", JStr "Succeeded")]) "Succeeded"
                  eq_refl eq_refl))).
  reflexivity.
Defined.

(** C5: a turn of the loop that sees a success status asks the result
    endpoint and ends the call with its answer, and whatever value
    [poll_until_complete] returns is the body the result endpoint answered,
    its request being the last call made; the status payload is not what is
    returned. *)
Theorem complete_returns_fetched_result (R : remote) (request_id : json)
    (timeout_seconds poll_interval : Z) :
  (forall start w took payload status_val,
     status_ep R request_id (polls w) = (took, Replied payload) ->
     status_val_of payload = Ok status_val ->
     in_tuple status_val success_words = true ->
     poll_iteration R request_id timeout_seconds poll_interval start w =
       (Done (of_reply (result_ep R request_id)),
        {| now := now w + Z.of_N took; polls := S (polls w);
           trace := (trace w ++ [EvStatus request_id])
                      ++ [EvResult request_id] |})) /\
  (forall fuel w v w',
     poll_until_complete fuel R request_id timeout_seconds poll_interval w
       = Some (Ok v, w') ->
     result_ep R request_id = Replied v /\
     exists earlier, trace w' = earlier ++ [EvResult request_id]).
Proof.
  split.
  - intros start w took payload sv. apply iteration_success.
  - intros fuel w v w' H. unfold poll_until_complete, time_time in H.
    exact (loop_returns_result _ _ _ _ _ _ _ _ _ H).
Qed.

Lemma complete_returns_fetched_result_witness :
  poll_iteration
    (reporting (JDict [("status", JStr "COMPLETE")])
               (JDict [("url", JStr "http://x/img.png")]))
    (JStr "abc") 60 2000 0 boot
  = (Done (Ok (JDict [("url", JStr "http://x/img.png")])),
     {| now := 0; polls := 1;
        trace := [EvStatus (JStr "abc"); EvResult (JStr "abc")] |}).
Proof.
  exact (proj1 (complete_returns_fetched_result
                  (reporting (JDict [("status", JStr "COMPLETE")])
                             (JDict [("url", JStr "http://x/img.png")]))
                  (JStr "abc") 60 2000)
           0 boot 0%N (JDict [("status", JStr "COMPLETE")]) "COMPLETE"
           eq_refl eq_refl eq_refl).
Defined.

(** C6: a turn of the loop that sees a failure status ends the call at once
    with the job failure carrying that status payload: the calls made are
    the ones before plus the one status request, with no sleep, no further
    status request and no reading of the clock, and the outcome is the same
    for every timeout, interval and start time. *)
Theorem failed_raises_at_once (R : remote) (request_id : json)
    (timeout_seconds poll_interval start : Z) (fuel : nat) (w : world)
    (took : N) (payload : json) (status_val : string) :
  status_ep R request_id (polls w) = (took, Replied payload) ->
  status_val_of payload = Ok status_val ->
  in_tuple status_val failure_words = true ->
  poll_loop (S fuel) R request_id timeout_seconds poll_interval start w =
    Some (Raise (RuntimeError payload),
          {| now := now w + Z.of_N took; polls := S (polls w);
             trace := trace w ++ [EvStatus request_id] |}).
Proof.
  intros Hep Hval Hin. cbn [poll_loop].
  rewrite (iteration_failure _ _ _ _ _ _ _ _ _ Hep Hval Hin). reflexivity.
Qed.

Lemma failed_raises_at_once_witness :
  poll_loop 1 (reporting (JDict [("state", JStr "failed")]) JNull)
    (JStr "abc") 60 2000 0 boot =
  Some (Raise (RuntimeError (JDict [("state", JStr "failed")])),
        {| now := 0; polls := 1; trace := [EvStatus (JStr "abc")] |}).
Proof.
  exact (failed_raises_at_once
           (reporting (JDict [("state", JStr "failed")]) JNull)
           (JStr "abc") 60 2000 0 0 boot 0%N
           (JDict [("state", JStr "failed")]) "FAILED"
           eq_refl eq_refl eq_refl).
Defined.

(** C10: a status payload without [status] and [state] (or with [null]
    under them) normalises to the empty string, which is in neither tuple;
    a job whose status requests are all answered that way is polled until
    the timeout has passed: with an interval [time.sleep] accepts and
    sleeps the operating system takes, the call
    asks for the status, reads the clock and sleeps for the interval, turn
    after turn while the reading is within the timeout, and ends in
    [TimeoutError] at a reading that is not, straight after one more status
    request. *)
Theorem statusless_polled_until_timeout (R : remote) (request_id : json)
    (timeout_seconds poll_interval : Z) (w : world) :
  0 < poll_interval ->
  poll_interval <= sleep_limit ->
  sleeps_taken R ->
  (forall n, exists payload,
     snd (status_ep R request_id n) = Replied payload /\ statusless payload) ->
  (forall payload, statusless payload ->
     status_val_of payload = Ok "" /\
     in_tuple "" success_words = false /\
     in_tuple "" failure_words = false) /\
  exists fuel w' calls,
    poll_until_complete fuel R request_id timeout_seconds poll_interval w
      = Some (Raise (TimeoutError timeout_seconds), w') /\
    trace w' = trace w ++ EvNow (now w) :: calls /\
    polled_until_deadline request_id (now w) (1000 * timeout_seconds)
                          poll_interval calls /\
    last calls (EvSleep 0) = EvNow (now w') /\
    1000 * timeout_seconds <= now w' - now w.
Proof.
  intros Hint Hsleep Htaken Hall. split.
  - intros payload Hp. split; [apply statusless_status_val, Hp|]. split; reflexivity.
  - assert (Hpending : never_terminal R request_id).
    { intros n. destruct (Hall n) as (payload & Hrep & Hp).
      exists payload, "". repeat split; [exact Hrep|].
      apply statusless_status_val, Hp. }
    set (fuel := S (Z.to_nat (1000 * timeout_seconds + 1))).
    destruct (loop_deadline R request_id timeout_seconds poll_interval (now w)
                Hpending Hint Hsleep Htaken fuel (log (EvNow (now w)) w))
      as (w' & calls & Hrun & Htr & Hcalls & Hlast & Hlo & _).
    + unfold log, fuel; cbn [now]. lia.
    + exists fuel, w', calls. unfold poll_until_complete, time_time.
      split; [exact Hrun|].
      split; [rewrite Htr; unfold log; cbn [trace];
              rewrite <- app_assoc; reflexivity|].
      split; [exact Hcalls|].
      split; [exact Hlast | lia].
Qed.

Lemma statusless_polled_until_timeout_witness :
  exists fuel w' calls,
    poll_until_complete fuel (reporting (JDict [("progress", JInt 40)]) JNull)
      (JStr "abc") 5 1000 boot
      = Some (Raise (TimeoutError 5), w') /\
    trace w' = trace boot ++ EvNow (now boot) :: calls /\
    polled_until_deadline (JStr "abc") (now boot) (1000 * 5) 1000 calls /\
    last calls (EvSleep 0) = EvNow (now w') /\
    1000 * 5 <= now w' - now boot.
Proof.
  assert (Hsleep : 1000 <= sleep_limit) by (unfold sleep_limit; lia).
  refine (proj2 (statusless_polled_until_timeout
                   (reporting (JDict [("progress", JInt 40)]) JNull)
                   (JStr "abc") 5 1000 boot eq_refl Hsleep _ _)).
  { intros n. discriminate. }
  intros n. exists (JDict [("progress", JInt 40)]). split; [reflexivity|].
  exists [("progress", JInt 40)]. repeat split.
Defined.

(** ** The job identifier *)

Lemma dict_get_absent (k : string) (d : list (string * json)) :
  has_key k d = false -> dict_get k d = JNull.
Proof.
  induction d as [|[k' v] d IH]; [reflexivity|].
  cbn [has_key dict_get]. destruct (k' =? k)%string; [discriminate|exact IH].
Qed.

(** The shared part of the handlers once the submit call has answered with
    a dict. *)
Lemma inference_after_submit (cfg : config) (R : remote) (fuel : nat)
    (prompt model_id options input_payload : json) (w : world)
    (d : list (string * json)) :
  build_input prompt options = Ok input_payload ->
  invoke_ep R (JDict [("model_id", model_id); ("input", input_payload)])
    = Replied (JDict d) ->
  inference cfg R fuel prompt model_id options w =
    let request_id :=
      py_or (py_or (dict_get "request_id" d) (dict_get "id" d))
            (dict_get "requestId" d) in
    if truthy request_id then
      match poll_until_complete fuel R request_id
              (DEFAULT_POLL_TIMEOUT cfg) (DEFAULT_POLL_INTERVAL cfg) w with
      | None => None
      | Some (Raise e, _) => Some (Raise e)
      | Some (Ok final_result, _) => Some (after_poll R final_result)
      end
    else Some (Ok (Malformed (JDict d))).
Proof.
  intros Hin Hep. unfold inference, start_async_inference.
  rewrite Hin. cbn [truthy]. rewrite Hep. cbn [of_reply request_id_of].
  cbv zeta. destruct (truthy _); reflexivity.
Qed.

Example submit_request_id :
  request_id_of (JDict [("request_id", JStr "abc")]) = Ok (JStr "abc").
Proof. reflexivity. Qed.

Example submit_id_before_requestId :
  request_id_of (JDict [("id", JStr "x"); ("requestId", JStr "y")])
  = Ok (JStr "x").
Proof. reflexivity. Qed.

(** C3 (as stated, refuted): the value under a present [request_id] key
    would always be the job identifier.  For the submit response
    [{"request_id": 0, "id": "x"}] the identifier is ["x"], not [0]. *)
Lemma first_present_key_wins_fails : ~ first_present_key_wins.
Proof.
  intros claim.
  specialize (claim [("request_id", JInt 0); ("id", JStr "x")] eq_refl).
  discriminate claim.
Qed.

(** C3 (amended): the job identifier is the first value that is true (not
    [null], empty or zero) among those under [request_id], [id] and
    [requestId], in that order, and it is the identifier the status is
    polled under; when none of the three is true, in particular when none of
    the keys is present, the handlers answer 500 "Unexpected async-invoke
    response" with the submit response attached. *)
Theorem submit_id_first_true_value (d : list (string * json)) :
  let v1 := dict_get "request_id" d in
  let v2 := dict_get "id" d in
  let v3 := dict_get "requestId" d in
  let chosen := if truthy v1 then v1 else if truthy v2 then v2 else v3 in
  request_id_of (JDict d) = Ok chosen /\
  (forall cfg R fuel prompt model_id options input_payload w,
     build_input prompt options = Ok input_payload ->
     invoke_ep R (JDict [("model_id", model_id); ("input", input_payload)])
       = Replied (JDict d) ->
     inference cfg R fuel prompt model_id options w =
       if truthy chosen then
         match poll_until_complete fuel R chosen
                 (DEFAULT_POLL_TIMEOUT cfg) (DEFAULT_POLL_INTERVAL cfg) w with
         | None => None
         | Some (Raise e, _) => Some (Raise e)
         | Some (Ok final_result, _) => Some (after_poll R final_result)
         end
       else Some (Ok (Malformed (JDict d)))) /\
  (has_key "request_id" d = false -> has_key "id" d = false ->
   has_key "requestId" d = false -> truthy chosen = false) /\
  generate_image_finish (Ok (Malformed (JDict d))) =
    JsonError 500 "Unexpected async-invoke response" (RawResponse (JDict d)) /\
  (forall R prompt,
     upload_image_to_spaces_finish R prompt (Ok (Malformed (JDict d))) =
     JsonError 500 "Unexpected async-invoke response" (RawResponse (JDict d))).
Proof.
  cbv zeta.
  assert (Hchosen :
    py_or (py_or (dict_get "request_id" d) (dict_get "id" d))
          (dict_get "requestId" d)
    = if truthy (dict_get "request_id" d) then dict_get "request_id" d
      else if truthy (dict_get "id" d) then dict_get "id" d
      else dict_get "requestId" d).
  { unfold py_or. destruct (truthy (dict_get "request_id" d)) eqn:H1.
    - rewrite H1. reflexivity.
    - destruct (truthy (dict_get "id" d)); reflexivity. }
  split; [|split; [|split; [|split]]].
  - cbn [request_id_of]. rewrite Hchosen. reflexivity.
  - intros cfg R fuel prompt model_id options input_payload w Hin Hep.
    rewrite (inference_after_submit _ _ _ _ _ _ _ _ _ Hin Hep). cbv zeta.
    rewrite Hchosen. reflexivity.
  - intros H1 H2 H3.
    rewrite (dict_get_absent _ _ H1), (dict_get_absent _ _ H2),
      (dict_get_absent _ _ H3). reflexivity.
  - reflexivity.
  - reflexivity.
Qed.

Lemma submit_id_first_true_value_witness :
  truthy (if truthy (dict_get "request_id" [("status", JStr "queued")])
          then dict_get "request_id" [("status", JStr "queued")]
          else if truthy (dict_get "id" [("status", JStr "queued")])
               then dict_get "id" [("status", JStr "queued")]
               else dict_get "requestId" [("status", JStr "queued")]) = false.
Proof.
  exact (proj1 (proj2 (proj2
           (submit_id_first_true_value [("status", JStr "queued")])))
           eq_refl eq_refl eq_refl).
Defined.

(** ** Failure kinds at the handlers *)

Example generate_image_connection_error :
  generate_image defaults (unreachable ConnectionError) 1
    (JDict [("prompt", JStr "a cat")]) boot
  = Some (JsonError 500 "Failed to generate image"
            (Details (RequestException ConnectionError))).
Proof. reflexivity. Qed.

Example generate_image_job_failed :
  generate_image defaults (reporting (JDict [("status", JStr "FAILED")]) JNull) 1
    (JDict [("prompt", JStr "a cat")]) boot
  = Some (JsonError 500 "Failed to generate image"
            (Details (RuntimeError (JDict [("status", JStr "FAILED")])))).
Proof. reflexivity. Qed.

Example upload_http_error :
  upload_image_to_spaces defaults (unreachable (HTTPError 503)) 1
    (JDict [("prompt", JStr "a cat")]) boot
  = Some (JsonError 500 "Failed to generate or upload image"
            (Details (RequestException (HTTPError 503)))).
Proof. reflexivity. Qed.

(** What the handlers answer, by status and error text: [generate_image]
    keeps a polling timeout, an HTTP status error, a failed job, a result
    without image and a submit response without identifier apart, and
    answers a request failure that is no HTTP status error like a failed
    job; [upload_image_to_spaces] has no clause for HTTP status errors. *)
Lemma handler_labels :
  (forall o1 o2 k1 k2,
     kind_of o1 = Some k1 -> kind_of o2 = Some k2 -> k1 <> k2 ->
     plain_transport o1 = false -> plain_transport o2 = false ->
     label (generate_image_finish o1) <> label (generate_image_finish o2)) /\
  (forall o payload,
     plain_transport o = true ->
     label (generate_image_finish o)
     = label (generate_image_finish (Raise (RuntimeError payload)))) /\
  (forall R prompt o1 o2 k1 k2,
     kind_of o1 = Some k1 -> kind_of o2 = Some k2 -> k1 <> k2 ->
     any_transport o1 = false -> any_transport o2 = false ->
     label (upload_image_to_spaces_finish R prompt o1)
     <> label (upload_image_to_spaces_finish R prompt o2)).
Proof.
  split; [|split].
  - intros [[| |]|[[]| | | | | | | | |]] [[| |]|[[]| | | | | | | | |]] k1 k2 H1 H2 Hne P1 P2;
      cbn in *; try discriminate; congruence.
  - intros [[| |]|[[]| | | | | | | | |]] payload P; cbn in *;
      try discriminate; reflexivity.
  - intros R prompt [[| |]|[| | | | | | | | |]] [[| |]|[| | | | | | | | |]] k1 k2
      H1 H2 Hne P1 P2; cbn in *; try discriminate; congruence.
Qed.

(** ** The search for a nested URL *)

Lemma find_first_url_dict_cons (k : string) (v : json) (rest : list (string * json)) :
  find_first_url (JDict ((k, v) :: rest)) =
  match http_str v with
  | Some s => Some s
  | None =>
      if found_truthy (find_first_url v) then find_first_url v
      else find_first_url (JDict rest)
  end.
Proof. reflexivity. Qed.

Lemma find_first_url_list_cons (el : json) (rest : list json) :
  find_first_url (JList (el :: rest)) =
  if found_truthy (find_first_url el) then find_first_url el
  else find_first_url (JList rest).
Proof. reflexivity. Qed.

Lemma spec_first_url_dict_cons (k : string) (v : json) (rest : list (string * json)) :
  spec_first_url (JDict ((k, v) :: rest)) =
  match spec_first_url v with
  | Some s => Some s
  | None => spec_first_url (JDict rest)
  end.
Proof. reflexivity. Qed.

Lemma spec_first_url_list_cons (el : json) (rest : list json) :
  spec_first_url (JList (el :: rest)) =
  match spec_first_url el with
  | Some s => Some s
  | None => spec_first_url (JList rest)
  end.
Proof. reflexivity. Qed.

Lemma http_str_some (v : json) (s : string) :
  http_str v = Some s -> v = JStr s /\ startswith s "http" = true.
Proof.
  destruct v; try discriminate. cbn [http_str].
  destruct (startswith s0 "http") eqn:H; [|discriminate].
  intros E; inversion E; subst. auto.
Qed.

Lemma startswith_http_truthy (s : string) :
  startswith s "http" = true -> found_truthy (Some s) = true.
Proof. destruct s; [discriminate|reflexivity]. Qed.

(** What the search returns begins with [http]. *)
Lemma find_first_url_is_http (obj : json) : forall s,
  find_first_url obj = Some s -> startswith s "http" = true.
Proof.
  induction obj as [| | | | |l IH|d IH] using json_ind; try discriminate.
  - induction IH as [|el rest Hel _ IHrest]; intros s; [discriminate|].
    rewrite find_first_url_list_cons.
    destruct (found_truthy (find_first_url el)); [apply Hel|apply IHrest].
  - induction IH as [|[k v] rest Hv _ IHrest]; intros s; [discriminate|].
    rewrite find_first_url_dict_cons. cbn [snd] in Hv.
    destruct (http_str v) as [u|] eqn:Hu.
    + intros E; inversion E; subst. apply (http_str_some _ _ Hu).
    + destruct (found_truthy (find_first_url v)); [apply Hv|apply IHrest].
Qed.

Lemma find_first_url_truthy (obj : json) :
  found_truthy (find_first_url obj) =
  match find_first_url obj with Some _ => true | None => false end.
Proof.
  destruct (find_first_url obj) as [s|] eqn:H; [|reflexivity].
  apply startswith_http_truthy, (find_first_url_is_http _ _ H).
Qed.

(** Without a string that begins with [http] anywhere, the search finds
    nothing. *)
Lemma find_first_url_none (obj : json) :
  has_http obj = false -> find_first_url obj = None.
Proof.
  induction obj as [| | | | |l IH|d IH] using json_ind; try reflexivity.
  - cbn [has_http]. induction IH as [|el rest Hel _ IHrest]; [reflexivity|].
    cbn [existsb]. intros H. apply orb_false_elim in H. destruct H as [H1 H2].
    rewrite find_first_url_list_cons, (Hel H1). cbn [found_truthy].
    apply IHrest, H2.
  - cbn [has_http]. induction IH as [|[k v] rest Hv _ IHrest]; [reflexivity|].
    cbn [existsb snd] in *. intros H. apply orb_false_elim in H.
    destruct H as [H1 H2].
    rewrite find_first_url_dict_cons, (Hv H1). cbn [found_truthy].
    replace (http_str v) with (@None string).
    + apply IHrest, H2.
    + destruct v; try reflexivity. cbn [has_http] in H1. cbn [http_str].
      rewrite H1. reflexivity.
Qed.

(** On a tree in which no string that begins with [http] is an element of a
    list, the search of the code is the search of the specification. *)
Lemma find_first_url_refines_spec (obj : json) :
  no_url_elements obj = true -> http_str obj = None ->
  find_first_url obj = spec_first_url obj.
Proof.
  induction obj as [| | | | s |l IH|d IH] using json_ind; try reflexivity.
  - cbn [http_str spec_first_url find_first_url].
    destruct (startswith s "http"); [discriminate|reflexivity].
  - intros Hclean _. cbn [no_url_elements] in Hclean.
    induction IH as [|el rest Hel _ IHrest]; [reflexivity|].
    cbn [forallb] in Hclean. apply andb_prop in Hclean.
    destruct Hclean as [H1 H2].
    destruct (http_str el) eqn:Hu; [discriminate|].
    rewrite find_first_url_list_cons, spec_first_url_list_cons.
    rewrite find_first_url_truthy, (Hel H1 eq_refl), (IHrest H2).
    destruct (spec_first_url el); reflexivity.
  - intros Hclean _. cbn [no_url_elements] in Hclean.
    induction IH as [|[k v] rest Hv _ IHrest]; [reflexivity|].
    cbn [forallb snd] in *. apply andb_prop in Hclean.
    destruct Hclean as [H1 H2].
    rewrite find_first_url_dict_cons, spec_first_url_dict_cons.
    destruct (http_str v) as [u|] eqn:Hu.
    + destruct (http_str_some _ _ Hu) as [-> Hpre].
      cbn [spec_first_url]. rewrite Hpre. reflexivity.
    + rewrite find_first_url_truthy, (Hv H1 eq_refl), (IHrest H2).
      destruct (spec_first_url v); reflexivity.
Qed.

(** C2 (the code departs from it): a string that begins with [http] and is
    an element of a list is not found.  For the result
    [{"images": ["http://x/a.png"]}] the search of the specification finds
    the URL, the search of the code returns [None], nothing is fetched, and
    the handler answers that the result holds no image. *)
Theorem url_in_list_not_found (R : remote) :
  let result_json := JDict [("images", JList [JStr "http://x/a.png"])] in
  spec_first_url result_json = Some "http://x/a.png" /\
  find_first_url result_json = None /\
  extract_image_bytes_from_result R result_json = Ok None /\
  generate_image_finish (after_poll R result_json) =
    JsonError 500 "No image found in inference result" (RawResult result_json).
Proof. repeat split. Qed.

(** ** Base64 decoding inverts the standard encoding *)

Lemma below_forall (bound : nat) (P : N -> bool) :
  forallb P (below bound) = true ->
  forall n, (n < N.of_nat bound)%N -> P n = true.
Proof.
  intros H n Hn. rewrite forallb_forall in H. apply H.
  unfold below. rewrite <- (N2Nat.id n). apply in_map, in_seq. lia.
Qed.

Lemma char_table : forallb char_ok (below 64) = true.
Proof. vm_compute. reflexivity. Qed.

Lemma pair_table :
  forallb (fun a => forallb (pair_ok a) (below 256)) (below 256) = true.
Proof. vm_compute. reflexivity. Qed.

Lemma char_facts (s : N) :
  (s < 64)%N ->
  b64_value (b64_char s) = Some s /\
  Ascii.eqb (b64_char s) "=" = false /\
  is_ascii (b64_char s) = true.
Proof.
  intros Hs. pose proof (below_forall 64 char_ok char_table s Hs) as H.
  unfold char_ok in H.
  apply andb_prop in H. destruct H as [H Hascii].
  apply andb_prop in H. destruct H as [Hval Hpad].
  destruct (b64_value (b64_char s)) as [s'|]; [|discriminate].
  apply N.eqb_eq in Hval. subst s'.
  apply negb_true_iff in Hpad. auto.
Qed.

Lemma pair_facts (a b : N) :
  (a < 256)%N -> (b < 256)%N -> pair_ok a b = true.
Proof.
  intros Ha Hb.
  pose proof (below_forall 256 _ pair_table a Ha) as H. cbv beta in H.
  exact (below_forall 256 _ H b Hb).
Qed.

Lemma to_N_below (a : byte) : (Byte.to_N a < 256)%N.
Proof. pose proof (Byte.to_N_bounded a). lia. Qed.

Lemma byte_of_to_N (a : byte) : byte_of_N (Byte.to_N a) = a.
Proof. destruct a; reflexivity. Qed.

(** One character of the alphabet taken by the decoding loop. *)
Lemma a2b_loop_char (s : N) (rest : string) (quad_pos leftchar pads : N)
    (acc : list byte) :
  (s < 64)%N ->
  a2b_loop (String (b64_char s) rest) quad_pos leftchar pads acc =
  match quad_pos with
  | 0%N => a2b_loop rest 1%N s 0%N acc
  | 1%N =>
      a2b_loop rest 2%N (N.land s 15) 0%N
        (byte_of_N (N.lor (N.shiftl leftchar 2) (N.shiftr s 4)) :: acc)
  | 2%N =>
      a2b_loop rest 3%N (N.land s 3) 0%N
        (byte_of_N (N.lor (N.shiftl leftchar 4) (N.shiftr s 2)) :: acc)
  | _ =>
      a2b_loop rest 0%N 0%N 0%N
        (byte_of_N (N.lor (N.shiftl leftchar 6) s) :: acc)
  end.
Proof.
  intros Hs. destruct (char_facts s Hs) as (Hval & Hpad & _).
  cbn [a2b_loop]. rewrite Hpad, Hval. reflexivity.
Qed.

Ltac split_facts H :=
  unfold pair_ok in H;
  repeat (apply andb_prop in H; let H' := fresh "H" in destruct H as [H H']);
  repeat match goal with
         | X : (_ <? _)%N = true |- _ => apply N.ltb_lt in X
         | X : (_ =? _)%N = true |- _ => apply N.eqb_eq in X
         end.

(** Decoding inverts the standard encoding. *)
Lemma a2b_loop_b64encode (content : list byte) : forall acc,
  a2b_loop (b64encode content) 0 0 0 acc = Ok (rev acc ++ content).
Proof.
  induction content as [|a|a b|a b c rest IH] using list_ind3; intros acc.
  - cbn. rewrite app_nil_r. reflexivity.
  - cbn [b64encode]. cbv zeta.
    pose proof (pair_facts (Byte.to_N a) 0 (to_N_below a) eq_refl) as H.
    split_facts H.
    rewrite !a2b_loop_char by assumption.
    match goal with X : _ = Byte.to_N a |- _ => rewrite X end.
    rewrite byte_of_to_N. reflexivity.
  - cbn [b64encode]. cbv zeta.
    pose proof (pair_facts (Byte.to_N a) (Byte.to_N b)
                  (to_N_below a) (to_N_below b)) as Hab.
    split_facts Hab.
    pose proof (pair_facts (Byte.to_N b) 0 (to_N_below b) eq_refl) as Hb.
    split_facts Hb.
    rewrite !a2b_loop_char by assumption.
    repeat match goal with
           | X : N.lor _ _ = Byte.to_N _ |- _ => rewrite X; clear X
           | X : N.land _ 15 = _ |- _ => rewrite X; clear X
           end.
    rewrite !byte_of_to_N. cbn [a2b_loop]. cbn.
    rewrite <- app_assoc. reflexivity.
  - cbn [b64encode]. cbv zeta.
    pose proof (pair_facts (Byte.to_N a) (Byte.to_N b)
                  (to_N_below a) (to_N_below b)) as Hab.
    split_facts Hab.
    pose proof (pair_facts (Byte.to_N b) (Byte.to_N c)
                  (to_N_below b) (to_N_below c)) as Hbc.
    split_facts Hbc.
    pose proof (pair_facts (Byte.to_N c) 0 (to_N_below c) eq_refl) as Hc.
    split_facts Hc.
    rewrite !a2b_loop_char by assumption.
    repeat match goal with
           | X : N.lor _ _ = Byte.to_N _ |- _ => rewrite X; clear X
           | X : N.land _ 15 = _ |- _ => rewrite X; clear X
           end.
    cbv iota. rewrite !byte_of_to_N, IH. cbn [rev].
    rewrite <- !app_assoc. reflexivity.
Qed.

Lemma is_ascii_b64_char (s : N) : (s < 64)%N -> is_ascii (b64_char s) = true.
Proof. intros Hs. apply (char_facts s Hs). Qed.

Lemma b64encode_is_ascii (content : list byte) :
  forallb is_ascii (list_ascii_of_string (b64encode content)) = true.
Proof.
  induction content as [|a|a b|a b c rest IH] using list_ind3.
  - reflexivity.
  - pose proof (pair_facts (Byte.to_N a) 0 (to_N_below a) eq_refl) as H.
    split_facts H.
    cbn [b64encode list_ascii_of_string forallb]. cbv zeta.
    rewrite !is_ascii_b64_char by assumption. reflexivity.
  - pose proof (pair_facts (Byte.to_N a) (Byte.to_N b)
                  (to_N_below a) (to_N_below b)) as Hab.
    split_facts Hab.
    pose proof (pair_facts (Byte.to_N b) 0 (to_N_below b) eq_refl) as Hb.
    split_facts Hb.
    cbn [b64encode list_ascii_of_string forallb]. cbv zeta.
    rewrite !is_ascii_b64_char by assumption. reflexivity.
  - pose proof (pair_facts (Byte.to_N a) (Byte.to_N b)
                  (to_N_below a) (to_N_below b)) as Hab.
    split_facts Hab.
    pose proof (pair_facts (Byte.to_N b) (Byte.to_N c)
                  (to_N_below b) (to_N_below c)) as Hbc.
    split_facts Hbc.
    pose proof (pair_facts (Byte.to_N c) 0 (to_N_below c) eq_refl) as Hc.
    split_facts Hc.
    cbn [b64encode list_ascii_of_string forallb]. cbv zeta.
    rewrite !is_ascii_b64_char by assumption. exact IH.
Qed.

Lemma b64decode_b64encode (content : list byte) :
  b64decode (JStr (b64encode content)) = Ok content.
Proof.
  unfold b64decode, a2b_base64.
  rewrite b64encode_is_ascii, a2b_loop_b64encode. reflexivity.
Qed.

(** ** Extraction *)

Lemma py_or_cases (a b : json) (P : json -> Prop) : P a -> P b -> P (py_or a b).
Proof. unfold py_or. destruct (truthy a); auto. Qed.

Lemma from_output_unusable (R : remote) (output : json) :
  usable_output output = false -> from_output R output = None.
Proof.
  destruct output as [| | | | |[|[| | | | | |item] rest]|]; try reflexivity.
  cbn [usable_output from_output]. intros H.
  apply orb_false_elim in H. destruct H as [H Himage].
  apply orb_false_elim in H. destruct H as [H Hb64].
  apply orb_false_elim in H. destruct H as [Hurl Hbase64].
  rewrite Hurl, Hbase64, Hb64, Himage. reflexivity.
Qed.

(** Extraction when the top-level [url] is not true and the output list
    starts with a dict whose [url] is not true. *)
Lemma extract_from_item (R : remote) (d item : list (string * json))
    (rest : list json) :
  truthy (dict_get "url" d) = false ->
  py_or (py_or (dict_get "output" d) (dict_get "outputs" d))
        (dict_get "results" d) = JList (JDict item :: rest) ->
  truthy (dict_get "url" item) = false ->
  truthy (dict_get "base64" item) || truthy (dict_get "b64" item) = true ->
  extract_image_bytes_from_result R (JDict d) =
    decode_inline (py_or (dict_get "base64" item) (dict_get "b64" item)).
Proof.
  intros Hurl Hout Hitem Hb.
  cbn [extract_image_bytes_from_result]. cbv zeta.
  rewrite Hurl, Hout. cbn [from_output]. rewrite Hitem, Hb. reflexivity.
Qed.

(** C7: the result [{"output": [{"base64": "aGVsbG8="}]}] yields the bytes
    of [hello] with content type [image/png]; and whenever the top-level
    [url] is not true and the output list starts with a dict whose [url] is
    not true, a true value under [base64] is the one decoded, a true value
    under [b64] is decoded when the one under [base64] is not true, and the
    decoded bytes come with content type [image/png]; decoding is that of
    standard base64: it gives back every byte sequence from its standard
    encoding. *)
Theorem inline_base64_decoded (R : remote) (d item : list (string * json))
    (rest : list json) :
  truthy (dict_get "url" d) = false ->
  py_or (py_or (dict_get "output" d) (dict_get "outputs" d))
        (dict_get "results" d) = JList (JDict item :: rest) ->
  truthy (dict_get "url" item) = false ->
  extract_image_bytes_from_result R
    (JDict [("output", JList [JDict [("base64", JStr "aGVsbG8=")]])])
    = Ok (Some (bytes_of_string "hello", "image/png")) /\
  (truthy (dict_get "base64" item) = true ->
   extract_image_bytes_from_result R (JDict d) =
     match b64decode (dict_get "base64" item) with
     | Ok content => Ok (Some (content, "image/png"))
     | Raise e => Raise e
     end) /\
  (truthy (dict_get "base64" item) = false ->
   truthy (dict_get "b64" item) = true ->
   extract_image_bytes_from_result R (JDict d) =
     match b64decode (dict_get "b64" item) with
     | Ok content => Ok (Some (content, "image/png"))
     | Raise e => Raise e
     end) /\
  (forall content, b64decode (JStr (b64encode content)) = Ok content).
Proof.
  intros Hurl Hout Hitem. split; [reflexivity|]. split; [|split].
  - intros Hb.
    rewrite (extract_from_item R d item rest Hurl Hout Hitem)
      by (rewrite Hb; reflexivity).
    unfold py_or. rewrite Hb. reflexivity.
  - intros Hb Hb'.
    rewrite (extract_from_item R d item rest Hurl Hout Hitem)
      by (rewrite Hb, Hb'; reflexivity).
    unfold py_or. rewrite Hb. reflexivity.
  - apply b64decode_b64encode.
Qed.

Lemma inline_base64_decoded_witness :
  extract_image_bytes_from_result (running 0)
    (JDict [("results",
             JList [JDict [("base64", JStr ""); ("b64", JStr "aGk=")]])])
  = Ok (Some (bytes_of_string "hi", "image/png")).
Proof.
  exact (proj1 (proj2 (proj2 (inline_base64_decoded (running 0)
           [("results", JList [JDict [("base64", JStr ""); ("b64", JStr "aGk=")]])]
           [("base64", JStr ""); ("b64", JStr "aGk=")] []
           eq_refl eq_refl eq_refl))) eq_refl eq_refl).
Defined.

(** C8: a result whose top-level [url] is not true, whose [output],
    [outputs] and [results] hold nothing strategy 2 can use, and which has
    no string beginning with [http] anywhere, yields no image, and both
    handlers answer 500 "No image found in inference result" with the whole
    result attached. *)
Theorem no_image_found (R : remote) (d : list (string * json)) :
  truthy (dict_get "url" d) = false ->
  usable_output (dict_get "output" d) = false ->
  usable_output (dict_get "outputs" d) = false ->
  usable_output (dict_get "results" d) = false ->
  has_http (JDict d) = false ->
  extract_image_bytes_from_result R (JDict d) = Ok None /\
  after_poll R (JDict d) = Ok (NoImage (JDict d)) /\
  generate_image_finish (after_poll R (JDict d)) =
    JsonError 500 "No image found in inference result" (RawResult (JDict d)) /\
  (forall prompt,
     upload_image_to_spaces_finish R prompt (after_poll R (JDict d)) =
     JsonError 500 "No image found in inference result" (RawResult (JDict d))).
Proof.
  intros Hurl H1 H2 H3 Hhttp.
  assert (Hextract : extract_image_bytes_from_result R (JDict d) = Ok None).
  { cbn [extract_image_bytes_from_result]. cbv zeta. rewrite Hurl.
    rewrite from_output_unusable
      by (apply py_or_cases; [apply py_or_cases|]; assumption).
    rewrite (find_first_url_none _ Hhttp). reflexivity. }
  assert (Hafter : after_poll R (JDict d) = Ok (NoImage (JDict d)))
    by (unfold after_poll; rewrite Hextract; reflexivity).
  rewrite Hafter. repeat split. exact Hextract.
Qed.

Lemma no_image_found_witness :
  extract_image_bytes_from_result (running 0)
    (JDict [("seed", JInt 7); ("timings", JDict [("inference", JFloat 0.5)])])
  = Ok None.
Proof.
  exact (proj1 (no_image_found (running 0)
           [("seed", JInt 7); ("timings", JDict [("inference", JFloat 0.5)])]
           eq_refl eq_refl eq_refl eq_refl eq_refl)).
Defined.

(** ** Failure kinds where the flow hands over to the handler *)

Lemma status_val_of_raises (payload : json) (e : exn) :
  status_val_of payload = Raise e -> e = AttributeError.
Proof.
  unfold status_val_of, status_text.
  destruct payload as [| | | | | |d]; cbn [bind];
    try (intros H; inversion H; reflexivity; fail).
  destruct (py_or _ _); cbn [bind]; intros H; inversion H; reflexivity.
Qed.

Lemma of_reply_raises {A} (r : reply A) (e : exn) :
  of_reply r = Raise e -> exists f, e = RequestException f /\ r = Fails f.
Proof.
  destruct r as [a|f]; cbn [of_reply]; intros H; inversion H. eauto.
Qed.

(** What the loop can raise, and where it comes from. *)
Lemma loop_raises (R : remote) (request_id : json)
    (timeout_seconds poll_interval start : Z) (fuel : nat) : forall w e w',
  poll_loop fuel R request_id timeout_seconds poll_interval start w
    = Some (Raise e, w') ->
  (e = TimeoutError timeout_seconds /\
   1000 * timeout_seconds < now w' - start) \/
  (exists n payload status_val,
     e = RuntimeError payload /\
     snd (status_ep R request_id n) = Replied payload /\
     status_val_of payload = Ok status_val /\
     in_tuple status_val failure_words = true) \/
  (exists f, e = RequestException f /\
     ((exists n, snd (status_ep R request_id n) = Fails f) \/
      result_ep R request_id = Fails f)) \/
  e = AttributeError \/ e = ValueError \/ e = OverflowError \/ e = OSError.
Proof.
  induction fuel as [|fuel IH]; intros w e w' H; [discriminate|].
  cbn [poll_loop] in H. unfold poll_iteration, get_job_status in H.
  destruct (status_ep R request_id (polls w)) as [took [payload | f]] eqn:Hst;
    cbn [of_reply] in H.
  2:{ inversion H; subst. right; right; left. exists f. split; [reflexivity|].
      left. exists (polls w). rewrite Hst. reflexivity. }
  destruct (status_val_of payload) as [sv | e0] eqn:Hval.
  2:{ inversion H; subst. right; right; right; left.
      apply (status_val_of_raises _ _ Hval). }
  destruct (in_tuple sv success_words).
  { unfold get_job_result in H. inversion H as [[Hr Hw]].
    destruct (of_reply_raises _ _ Hr) as (f & -> & Hf).
    right; right; left. exists f. auto. }
  destruct (in_tuple sv failure_words) eqn:Hfail.
  { inversion H; subst. right; left. exists (polls w), payload, sv.
    rewrite Hst. auto. }
  unfold time_time, time_sleep, log in H; cbn [now polls trace] in H.
  destruct (_ >? _) eqn:Hgt.
  { inversion H; subst; cbn [now]. left. split; [reflexivity|]. lia. }
  destruct (sleep_error poll_interval) as [e1|] eqn:Hsl.
  { inversion H; subst. right; right; right; right.
    destruct (sleep_error_cases _ _ Hsl); auto. }
  destruct (sleep_extra R _).
  2:{ inversion H; subst. do 6 right. reflexivity. }
  apply (IH _ _ _ H).
Qed.

Lemma a2b_loop_raises (s : string) : forall quad_pos leftchar pads acc e,
  a2b_loop s quad_pos leftchar pads acc = Raise e -> e = BinasciiError.
Proof.
  induction s as [|c s IH]; intros q l p acc e; cbn [a2b_loop].
  - destruct (q =? 0)%N; intros H; inversion H; reflexivity.
  - destruct (Ascii.eqb c "=").
    + destruct (2 <=? q)%N; [destruct (4 <=? q + (p + 1))%N|];
        try discriminate; apply IH.
    + destruct (b64_value c); [|apply IH].
      destruct q as [|[[| |]|[| |]|]]; apply IH.
Qed.

Lemma decode_inline_raises (v : json) (e : exn) :
  decode_inline v = Raise e ->
  e = BinasciiError \/ e = ValueError \/ e = TypeError.
Proof.
  unfold decode_inline, b64decode.
  destruct v; cbn [bind]; try (intros H; inversion H; auto; fail).
  destruct (forallb _ _); cbn [bind].
  - destruct (a2b_base64 s) eqn:Hs; cbn [bind]; intros H; inversion H; subst.
    left. apply (a2b_loop_raises _ _ _ _ _ _ Hs).
  - intros H; inversion H; auto.
Qed.

Lemma download_raises (R : remote) (url : json) (e : exn) :
  download R url = Raise e ->
  exists f, e = RequestException f /\ asset_ep R url = Fails f.
Proof.
  unfold download. destruct (asset_ep R url) as [a|f]; cbn [of_reply bind];
    intros H; inversion H. eauto.
Qed.

(** What extraction can raise: a failed download, or one of the errors of
    [.get] and of base64 decoding. *)
Lemma extract_raises (R : remote) (result_json : json) (e : exn) :
  extract_image_bytes_from_result R result_json = Raise e ->
  (exists f url, e = RequestException f /\ asset_ep R url = Fails f) \/
  e = AttributeError \/ e = BinasciiError \/ e = ValueError \/ e = TypeError.
Proof.
  assert (Hdl : forall url, download R url = Raise e ->
    (exists f url, e = RequestException f /\ asset_ep R url = Fails f) \/
    e = AttributeError \/ e = BinasciiError \/ e = ValueError \/ e = TypeError).
  { intros url H. destruct (download_raises _ _ _ H) as (f & -> & Hf).
    left. eauto. }
  assert (Hdec : forall v, decode_inline v = Raise e ->
    (exists f url, e = RequestException f /\ asset_ep R url = Fails f) \/
    e = AttributeError \/ e = BinasciiError \/ e = ValueError \/ e = TypeError).
  { intros v H. destruct (decode_inline_raises _ _ H) as [-> | [-> | ->]]; auto. }
  destruct result_json as [| | | | | |d]; cbn [extract_image_bytes_from_result];
    try (intros H; inversion H; auto; fail).
  cbv zeta. destruct (truthy (dict_get "url" d)); [apply Hdl|].
  destruct (from_output R _) as [r|] eqn:Hfrom.
  - intros Hr; subst r. revert Hfrom. unfold from_output.
    destruct (py_or _ _) as [| | | | |[|[| | | | | |item] rest]|];
      try discriminate.
    destruct (truthy (dict_get "url" item));
      [intros H; inversion H as [H']; apply (Hdl _ H')|].
    destruct (_ || _); [intros H; inversion H as [H']; apply (Hdec _ H')|].
    destruct (_ && _); [intros H; inversion H as [H']; apply (Hdec _ H')|].
    discriminate.
  - destruct (found_truthy _); [|discriminate].
    destruct (find_first_url _); [apply Hdl|discriminate].
Qed.

Lemma after_poll_no_image (R : remote) (final_result fr : json) :
  after_poll R final_result = Ok (NoImage fr) ->
  fr = final_result /\
  forall b bs ct,
    extract_image_bytes_from_result R final_result <> Ok (Some (b :: bs, ct)).
Proof.
  unfold after_poll.
  destruct (extract_image_bytes_from_result R final_result)
    as [[[[|b bs] ct]|]|e]; cbn [bind]; intros H; inversion H;
    split; try reflexivity; intros; discriminate.
Qed.

Lemma after_poll_raises (R : remote) (final_result : json) (e : exn) :
  after_poll R final_result = Raise e ->
  extract_image_bytes_from_result R final_result = Raise e.
Proof.
  unfold after_poll.
  destruct (extract_image_bytes_from_result R final_result)
    as [[[[|b bs] ct]|]|e']; cbn [bind]; intros H; inversion H. reflexivity.
Qed.

Lemma after_poll_not_malformed (R : remote) (final_result resp : json) :
  after_poll R final_result <> Ok (Malformed resp).
Proof.
  unfold after_poll.
  destruct (extract_image_bytes_from_result R final_result)
    as [[[[|b bs] ct]|]|e']; cbn [bind]; discriminate.
Qed.

(** C9 (as stated, refuted): no two kinds of failure would be answered
    alike.  A connection error and a failed job both reach the last
    [except] clause of [generate_image], which answers 500 and
    [Failed to generate image] for both. *)
Lemma failure_kinds_distinct_fails : ~ failure_kinds_distinct.
Proof.
  intros [claim _].
  apply (claim (Raise (RequestException ConnectionError))
               (Raise (RuntimeError JNull))
               TransportError JobFailedError eq_refl eq_refl).
  - discriminate.
  - reflexivity.
Qed.

(** C9 (amended): the failures of the five kinds are not swallowed, and the
    handlers answer them by the clause that catches them.  [generate_image]
    answers a polling timeout with 504, an HTTP status error with 502, and
    a failed job like every other request failure with 500 and the text of
    its last [except] clause; [upload_image_to_spaces] answers a polling
    timeout with 504 and a failed job like every request failure with 500
    and the text of its last clause; both answer a result without image and
    a submit response without identifier with 500 and a text of their own.
    An exception raised while polling or extracting leaves the shared flow
    as it was raised, and from the outcome the failure is known:
    [TimeoutError] comes from the passed deadline only, [RuntimeError] from
    a status in the failure tuple only, a [requests] exception from a
    request that failed, and the two early returns from a result without
    image bytes and from a submit response without a true identifier. *)
Theorem failure_kinds_reach_handler (cfg : config) (R : remote) (fuel : nat)
    (prompt model_id options : json) (w : world) :
  let T := DEFAULT_POLL_TIMEOUT cfg in
  let I := DEFAULT_POLL_INTERVAL cfg in
  (forall o k,
     kind_of o = Some k ->
     label (generate_image_finish o) =
       Some (match k with
             | PollTimeoutError => (504, "Inference job timed out")
             | JobFailedError => (500, "Failed to generate image")
             | TransportError =>
                 if plain_transport o then (500, "Failed to generate image")
                 else (502, "HTTP error during inference")
             | NoImageFoundError =>
                 (500, "No image found in inference result")
             | MalformedResponseError =>
                 (500, "Unexpected async-invoke response")
             end) /\
     label (upload_image_to_spaces_finish R prompt o) =
       Some (match k with
             | PollTimeoutError => (504, "Inference job timed out")
             | JobFailedError | TransportError =>
                 (500, "Failed to generate or upload image")
             | NoImageFoundError =>
                 (500, "No image found in inference result")
             | MalformedResponseError =>
                 (500, "Unexpected async-invoke response")
             end)) /\
  (forall input_payload d e w',
     build_input prompt options = Ok input_payload ->
     invoke_ep R (JDict [("model_id", model_id); ("input", input_payload)])
       = Replied (JDict d) ->
     let request_id :=
       py_or (py_or (dict_get "request_id" d) (dict_get "id" d))
             (dict_get "requestId" d) in
     truthy request_id = true ->
     (poll_until_complete fuel R request_id T I w = Some (Raise e, w') ->
      inference cfg R fuel prompt model_id options w = Some (Raise e)) /\
     (forall final_result,
        poll_until_complete fuel R request_id T I w
          = Some (Ok final_result, w') ->
        extract_image_bytes_from_result R final_result = Raise e ->
        inference cfg R fuel prompt model_id options w = Some (Raise e))) /\
  (forall o k,
     inference cfg R fuel prompt model_id options w = Some o ->
     kind_of o = Some k ->
     match k with
     | PollTimeoutError =>
         o = Raise (TimeoutError T) /\
         exists request_id w',
           poll_until_complete fuel R request_id T I w
             = Some (Raise (TimeoutError T), w') /\
           1000 * T <= now w' - now w
     | JobFailedError =>
         exists request_id w' payload status_val,
           o = Raise (RuntimeError payload) /\
           poll_until_complete fuel R request_id T I w
             = Some (Raise (RuntimeError payload), w') /\
           status_val_of payload = Ok status_val /\
           in_tuple status_val failure_words = true
     | TransportError =>
         exists f,
           o = Raise (RequestException f) /\
           ((exists body, invoke_ep R body = Fails f) \/
            (exists request_id n, snd (status_ep R request_id n) = Fails f) \/
            (exists request_id, result_ep R request_id = Fails f) \/
            (exists url, asset_ep R url = Fails f))
     | NoImageFoundError =>
         exists request_id w' final_result,
           o = Ok (NoImage final_result) /\
           poll_until_complete fuel R request_id T I w
             = Some (Ok final_result, w') /\
           forall b bs ct,
             extract_image_bytes_from_result R final_result
               <> Ok (Some (b :: bs, ct))
     | MalformedResponseError =>
         exists start_resp request_id,
           o = Ok (Malformed start_resp) /\
           (exists body, invoke_ep R body = Replied start_resp) /\
           request_id_of start_resp = Ok request_id /\
           truthy request_id = false
     end).
Proof.
  cbv zeta. split; [|split].
  - intros o k Hk.
    destruct o as [[| |]|[[]| | | | | | | | |]]; try discriminate Hk;
      cbn [kind_of] in Hk; inversion Hk; subst k; split; reflexivity.
  - intros input_payload d e w' Hin Hep Hid.
    rewrite (inference_after_submit _ _ _ _ _ _ _ _ _ Hin Hep). cbv zeta.
    rewrite Hid. split.
    + intros Hpoll. rewrite Hpoll. reflexivity.
    + intros final_result Hpoll Hex. rewrite Hpoll.
      unfold after_poll. rewrite Hex. reflexivity.
  - intros o k Hrun Hkind. unfold inference in Hrun.
    destruct (build_input prompt options) as [input_payload|e0] eqn:Hin.
    2:{ inversion Hrun; subst o. unfold build_input in Hin.
        destruct options; inversion Hin; subst e0; discriminate Hkind. }
    unfold start_async_inference in Hrun. cbn [truthy] in Hrun.
    destruct (invoke_ep R _) as [start_resp|f] eqn:Hep; cbn [of_reply] in Hrun.
    2:{ inversion Hrun; subst o. cbn [kind_of] in Hkind.
        inversion Hkind; subst k. exists f. split; [reflexivity|].
        left. eauto. }
    destruct (request_id_of start_resp) as [request_id|e0] eqn:Hid.
    2:{ inversion Hrun; subst o. unfold request_id_of in Hid.
        destruct start_resp; inversion Hid; subst e0; discriminate Hkind. }
    destruct (truthy request_id) eqn:Htrue; cbn [negb] in Hrun.
    2:{ inversion Hrun; subst o. cbn [kind_of] in Hkind.
        inversion Hkind; subst k. exists start_resp, request_id.
        repeat split; eauto. }
    destruct (poll_until_complete fuel R request_id _ _ w)
      as [[[final_result|e] w']|] eqn:Hpoll; [| |discriminate].
    + injection Hrun as Hafter.
      destruct o as [[resp|fr|img ct]|e].
      * exfalso. exact (after_poll_not_malformed _ _ _ Hafter).
      * cbn [kind_of] in Hkind. inversion Hkind; subst k.
        destruct (after_poll_no_image _ _ _ Hafter) as [-> Hno].
        exists request_id, w', final_result. auto.
      * discriminate Hkind.
      * apply after_poll_raises in Hafter.
        destruct (extract_raises _ _ _ Hafter)
          as [(f & url & -> & Hf) | [-> | [-> | [-> | ->]]]];
          try discriminate Hkind.
        cbn [kind_of] in Hkind. inversion Hkind; subst k.
        exists f. split; [reflexivity|]. right; right; right. eauto.
    + inversion Hrun; subst o; clear Hrun.
      pose proof Hpoll as Hloop.
      unfold poll_until_complete, time_time in Hloop.
      destruct (loop_raises _ _ _ _ _ _ _ _ _ Hloop)
        as [[-> Hlate] | [(n & payload & sv & -> & Hrep & Hval & Hfail)
           | [(f & -> & Hf) | [-> | [-> | [-> | ->]]]]]];
        try discriminate Hkind; cbn [kind_of] in Hkind;
        inversion Hkind; subst k.
      * split; [reflexivity|]. exists request_id, w'.
        split; [exact Hpoll|]. cbn [now log] in Hlate. lia.
      * exists request_id, w', payload, sv. auto.
      * exists f. split; [reflexivity|]. right.
        destruct Hf as [[n Hn] | Hres]; [left | right; left]; eauto.
Qed.

Lemma failure_kinds_reach_handler_witness :
  exists f,
    @Raise flow (RequestException (HTTPError 503)) = Raise (RequestException f) /\
    ((exists body,
        invoke_ep (unreachable (HTTPError 503)) body = Fails f) \/
     (exists request_id n,
        snd (status_ep (unreachable (HTTPError 503)) request_id n) = Fails f) \/
     (exists request_id,
        result_ep (unreachable (HTTPError 503)) request_id = Fails f) \/
     (exists url, asset_ep (unreachable (HTTPError 503)) url = Fails f)).
Proof.
  exact (proj2 (proj2 (failure_kinds_reach_handler defaults
                         (unreachable (HTTPError 503)) 1
                         (JStr "a cat") (JStr "fal-ai/flux/schnell")
                         (JDict []) boot))
           (Raise (RequestException (HTTPError 503))) TransportError
           eq_refl eq_refl).
Defined.

(** ** Calls made by a run of the polling loop *)

Lemma count_app (sort : event -> bool) (l1 l2 : list event) :
  count sort (l1 ++ l2) = (count sort l1 + count sort l2)%nat.
Proof. unfold count. rewrite filter_app, length_app. reflexivity. Qed.

(** The calls of one turn: one status request, then nothing, the request
    for the result, a reading of the clock, or a reading of the clock and a
    sleep; only the last lets the loop go round again. *)
Lemma iteration_calls (R : remote) (request_id : json)
    (timeout_seconds poll_interval start : Z) (w w' : world) (s : step) :
  poll_iteration R request_id timeout_seconds poll_interval start w = (s, w') ->
  polls w' = S (polls w) /\
  exists evs, trace w' = trace w ++ EvStatus request_id :: evs /\
    count is_status evs = 0%nat /\
    match s with
    | Again => count is_sleep evs = 1%nat /\ count is_result evs = 0%nat
    | Done r =>
        count is_sleep evs = 0%nat /\
        (count is_result evs <= 1)%nat /\
        (forall v, r = Ok v -> count is_result evs = 1%nat)
    end.
Proof.
  unfold poll_iteration, get_job_status.
  destruct (status_ep R request_id (polls w)) as [took [payload | f]];
    cbn [of_reply].
  2:{ intros H; inversion H; subst; cbn [polls trace]. split; [reflexivity|].
      exists []. repeat split; auto; discriminate. }
  destruct (status_val_of payload) as [sv | e].
  2:{ intros H; inversion H; subst; cbn [polls trace]. split; [reflexivity|].
      exists []. repeat split; auto; discriminate. }
  destruct (in_tuple sv success_words).
  { unfold get_job_result, log; cbn [now polls trace].
    intros H; inversion H; subst; cbn [polls trace]. split; [reflexivity|].
    exists [EvResult request_id]. rewrite <- app_assoc.
    repeat split; auto. }
  destruct (in_tuple sv failure_words).
  { intros H; inversion H; subst; cbn [polls trace]. split; [reflexivity|].
    exists []. repeat split; auto; discriminate. }
  unfold time_time, time_sleep, log; cbn [now polls trace].
  destruct (_ >? _).
  { intros H; inversion H; subst; cbn [polls trace]. split; [reflexivity|].
    eexists [EvNow _]. rewrite <- app_assoc.
    repeat split; auto; discriminate. }
  destruct (sleep_error poll_interval).
  { intros H; inversion H; subst; cbn [polls trace]. split; [reflexivity|].
    eexists [EvNow _]. rewrite <- app_assoc.
    repeat split; auto; discriminate. }
  destruct (sleep_extra R _).
  2:{ intros H; inversion H; subst; cbn [polls trace]. split; [reflexivity|].
      eexists [EvNow _]. rewrite <- app_assoc.
      repeat split; auto; discriminate. }
  intros H; inversion H; subst; cbn [polls trace]. split; [reflexivity|].
  eexists [EvNow _; EvSleep _]. rewrite <- !app_assoc.
  repeat split; auto.
Qed.

Lemma loop_calls (R : remote) (request_id : json)
    (timeout_seconds poll_interval start : Z) (fuel : nat) : forall w r w',
  poll_loop fuel R request_id timeout_seconds poll_interval start w
    = Some (r, w') ->
  exists rest, trace w' = trace w ++ rest /\
    count is_status rest = S (count is_sleep rest) /\
    polls w' = (polls w + count is_status rest)%nat /\
    (count is_result rest <= 1)%nat /\
    (forall v, r = Ok v -> count is_result rest = 1%nat).
Proof.
  induction fuel as [|fuel IH]; intros w r w' H; [discriminate|].
  cbn [poll_loop] in H.
  destruct (poll_iteration R request_id timeout_seconds poll_interval start w)
    as [s w1] eqn:Hit.
  destruct (iteration_calls _ _ _ _ _ _ _ _ Hit) as (Hp & evs & Htr & Hst & Hs).
  replace (EvStatus request_id :: evs) with ([EvStatus request_id] ++ evs) in Htr
    by reflexivity.
  destruct s as [r1|].
  - inversion H; subst. destruct Hs as (Hsl & Hle & Hok).
    exists ([EvStatus request_id] ++ evs). split; [exact Htr|].
    rewrite !count_app, Hst, Hsl. cbn. repeat split; auto. lia.
  - destruct Hs as (Hsl & Hres).
    destruct (IH _ _ _ H) as (rest & Htr' & Hc & Hp' & Hle & Hok).
    exists (([EvStatus request_id] ++ evs) ++ rest). split.
    + rewrite Htr', Htr, <- !app_assoc. reflexivity.
    + rewrite !count_app, Hst, Hsl, Hres, Hc. cbn.
      repeat split; auto; lia.
Qed.

(** On every run that ends, the status requests are one more than the
    sleeps, [polls] counts them, the result is asked for at most once, and
    it is asked for whenever a value is returned. *)
Theorem poll_calls_count (fuel : nat) (R : remote) (request_id : json)
    (timeout_seconds poll_interval : Z) (w : world) (r : res json) (w' : world) :
  poll_until_complete fuel R request_id timeout_seconds poll_interval w
    = Some (r, w') ->
  exists rest, trace w' = trace w ++ EvNow (now w) :: rest /\
    count is_status rest = S (count is_sleep rest) /\
    polls w' = (polls w + count is_status rest)%nat /\
    (count is_result rest <= 1)%nat /\
    (forall v, r = Ok v -> count is_result rest = 1%nat).
Proof.
  unfold poll_until_complete, time_time. intros H.
  destruct (loop_calls _ _ _ _ _ _ _ _ _ H) as (rest & Htr & Hrest).
  exists rest. split; [|exact Hrest].
  rewrite Htr. unfold log; cbn [trace]. rewrite <- app_assoc. reflexivity.
Qed.

Lemma poll_calls_count_witness :
  exists rest,
    trace {| now := 6250; polls := 5;
             trace :=
               [EvNow 0;
                EvStatus (JStr "abc"); EvNow 450; EvSleep 1000;
                EvStatus (JStr "abc"); EvNow 1900; EvSleep 1000;
                EvStatus (JStr "abc"); EvNow 3350; EvSleep 1000;
                EvStatus (JStr "abc"); EvNow 4800; EvSleep 1000;
                EvStatus (JStr "abc"); EvNow 6250] |}
    = trace boot ++ EvNow (now boot) :: rest /\
    count is_status rest = S (count is_sleep rest) /\
    polls {| now := 6250; polls := 5; trace := [] |}
      = (polls boot + count is_status rest)%nat /\
    (count is_result rest <= 1)%nat /\
    (forall v, @Raise json (TimeoutError 5) = Ok v ->
     count is_result rest = 1%nat).
Proof.
  exact (poll_calls_count 10 (running 450) (JStr "abc") 5 1000 boot _ _ eq_refl).
Defined.

(** ** Edge cases of the polling loop *)

Lemma poll_loop_turn (fuel : nat) (R : remote) (request_id : json)
    (timeout_seconds poll_interval start : Z) (w : world) :
  poll_loop (S fuel) R request_id timeout_seconds poll_interval start w =
  match poll_iteration R request_id timeout_seconds poll_interval start w with
  | (Done r, w') => Some (r, w')
  | (Again, w') =>
      poll_loop fuel R request_id timeout_seconds poll_interval start w'
  end.
Proof. reflexivity. Qed.

(** When the first status request alone takes longer than the timeout, as
    it does for every negative timeout, a job that is not yet terminal
    fails with [TimeoutError] after that one request, without a sleep. *)
Theorem poll_first_request_too_slow (fuel : nat) (R : remote)
    (request_id : json) (timeout_seconds poll_interval : Z) (w : world)
    (took : N) (payload : json) (status_val : string) :
  status_ep R request_id (polls w) = (took, Replied payload) ->
  status_val_of payload = Ok status_val ->
  in_tuple status_val success_words = false ->
  in_tuple status_val failure_words = false ->
  1000 * timeout_seconds < Z.of_N took ->
  poll_until_complete (S fuel) R request_id timeout_seconds poll_interval w =
    Some (Raise (TimeoutError timeout_seconds),
          {| now := now w + Z.of_N took; polls := S (polls w);
             trace := trace w ++ [EvNow (now w); EvStatus request_id;
                                  EvNow (now w + Z.of_N took)] |}).
Proof.
  intros Hst Hval Hs Hf Hslow.
  unfold poll_until_complete, time_time. cbn [poll_loop].
  rewrite (iteration_pending _ _ _ _ _ (log (EvNow (now w)) w) _ _ _
             Hst Hval Hs Hf); cbv zeta.
  unfold log; cbn [now polls trace].
  replace (now w + Z.of_N took - now w >? 1000 * timeout_seconds) with true
    by (symmetry; apply Z.gtb_lt; lia).
  rewrite <- !app_assoc. reflexivity.
Qed.

Lemma poll_first_request_too_slow_witness :
  poll_until_complete 1 (running 0) (JStr "abc") (-1) 1000 boot =
    Some (Raise (TimeoutError (-1)),
          {| now := 0; polls := 1;
             trace := [EvNow 0; EvStatus (JStr "abc"); EvNow 0] |}).
Proof.
  exact (poll_first_request_too_slow 0 (running 0) (JStr "abc") (-1) 1000 boot
           0%N (JDict [("status", JStr "running")]) "RUNNING"
           eq_refl eq_refl eq_refl eq_refl eq_refl).
Defined.

(** With an interval [time.sleep] refuses the call does not poll: the first
    status that is not terminal and comes within the timeout ends it with
    the exception of [time.sleep], a [ValueError] for a negative interval
    down to the limit and an [OverflowError] for an interval beyond the
    limit on either side. *)
Theorem poll_refused_interval (fuel : nat) (R : remote)
    (request_id : json) (timeout_seconds poll_interval : Z) (w : world)
    (took : N) (payload : json) (status_val : string) :
  status_ep R request_id (polls w) = (took, Replied payload) ->
  status_val_of payload = Ok status_val ->
  in_tuple status_val success_words = false ->
  in_tuple status_val failure_words = false ->
  Z.of_N took <= 1000 * timeout_seconds ->
  let after_first_check :=
    {| now := now w + Z.of_N took; polls := S (polls w);
       trace := trace w ++ [EvNow (now w); EvStatus request_id;
                            EvNow (now w + Z.of_N took)] |} in
  (- sleep_limit <= poll_interval < 0 ->
   poll_until_complete (S fuel) R request_id timeout_seconds poll_interval w =
     Some (Raise ValueError, after_first_check)) /\
  (poll_interval < - sleep_limit \/ sleep_limit < poll_interval ->
   poll_until_complete (S fuel) R request_id timeout_seconds poll_interval w =
     Some (Raise OverflowError, after_first_check)).
Proof.
  intros Hst Hval Hs Hf Hfast after_first_check; subst after_first_check.
  assert (Hrun : forall e, sleep_error poll_interval = Some e ->
    poll_until_complete (S fuel) R request_id timeout_seconds poll_interval w =
      Some (Raise e,
            {| now := now w + Z.of_N took; polls := S (polls w);
               trace := trace w ++ [EvNow (now w); EvStatus request_id;
                                    EvNow (now w + Z.of_N took)] |})).
  { intros e He.
    unfold poll_until_complete, time_time. cbn [poll_loop].
    rewrite (iteration_pending _ _ _ _ _ (log (EvNow (now w)) w) _ _ _
               Hst Hval Hs Hf); cbv zeta.
    unfold log; cbn [now polls trace].
    replace (now w + Z.of_N took - now w >? 1000 * timeout_seconds) with false
      by (rewrite Z.gtb_ltb; symmetry; apply Z.ltb_ge; lia).
    rewrite He, <- !app_assoc. reflexivity. }
  split; intros HI; apply Hrun.
  - apply sleep_error_negative, HI.
  - apply sleep_error_beyond, HI.
Qed.

Lemma poll_refused_interval_witness :
  poll_until_complete 1 (running 0) (JStr "abc") 60 (-2000) boot =
    Some (Raise ValueError,
          {| now := 0; polls := 1;
             trace := [EvNow 0; EvStatus (JStr "abc"); EvNow 0] |}).
Proof.
  refine (proj1 (poll_refused_interval 0 (running 0) (JStr "abc") 60 (-2000)
                   boot 0%N (JDict [("status", JStr "running")]) "RUNNING"
                   eq_refl eq_refl eq_refl eq_refl _) _).
  - discriminate.
  - unfold sleep_limit. lia.
Defined.

(** ** The status field *)

(** Line 115 takes the first of [status] and [state] that is true, not the
    first that is present; a value taken that is no string is an
    [AttributeError] even when the other key holds a status; and with
    neither true the status is the empty string. *)
Theorem status_key_precedence (d : list (string * json)) :
  (truthy (dict_get "status" d) = true ->
   status_text (JDict d) =
     match dict_get "status" d with
     | JStr s => Ok s
     | _ => Raise AttributeError
     end) /\
  (truthy (dict_get "status" d) = false ->
   truthy (dict_get "state" d) = true ->
   status_text (JDict d) =
     match dict_get "state" d with
     | JStr s => Ok s
     | _ => Raise AttributeError
     end) /\
  (truthy (dict_get "status" d) = false ->
   truthy (dict_get "state" d) = false ->
   status_text (JDict d) = Ok "").
Proof.
  unfold status_text, py_or. repeat split.
  - intros H1. rewrite H1, H1. reflexivity.
  - intros H1 H2. rewrite H1, H2. reflexivity.
  - intros H1 H2. rewrite H1, H2. reflexivity.
Qed.

Lemma status_key_precedence_witness :
  status_text (JDict [("status", JInt 200); ("state", JStr "COMPLETE")])
  = Raise AttributeError.
Proof.
  exact (proj1 (status_key_precedence
                  [("status", JInt 200); ("state", JStr "COMPLETE")]) eq_refl).
Defined.

(** ** What extraction finds *)

Lemma url_values_dict_cons (k : string) (v : json) (rest : list (string * json)) :
  url_values (JDict ((k, v) :: rest)) =
  match http_str v with
  | Some s => [s]
  | None => url_values v
  end ++ url_values (JDict rest).
Proof. reflexivity. Qed.

Lemma url_values_list_cons (el : json) (rest : list json) :
  url_values (JList (el :: rest)) = url_values el ++ url_values (JList rest).
Proof. reflexivity. Qed.

Lemma hd_error_app {A} (l1 l2 : list A) :
  hd_error (l1 ++ l2) =
  match hd_error l1 with Some a => Some a | None => hd_error l2 end.
Proof. destruct l1; reflexivity. Qed.

(** The search returns the first, in the order of the walk, of the strings
    that begin with [http] and are the value of a key of some dict of the
    tree, and [None] when there is none; an element of a list is looked
    into, never returned itself. *)
Theorem find_first_url_first_value (obj : json) :
  find_first_url obj = hd_error (url_values obj).
Proof.
  induction obj as [| | | | |l IH|d IH] using json_ind; try reflexivity.
  - induction IH as [|el rest Hel _ IHrest]; [reflexivity|].
    rewrite find_first_url_list_cons, url_values_list_cons, hd_error_app.
    rewrite find_first_url_truthy, Hel, IHrest.
    destruct (hd_error (url_values el)); reflexivity.
  - induction IH as [|[k v] rest Hv _ IHrest]; [reflexivity|].
    cbn [snd] in Hv.
    rewrite find_first_url_dict_cons, url_values_dict_cons, hd_error_app.
    destruct (http_str v) as [u|]; [reflexivity|].
    rewrite find_first_url_truthy, Hv, IHrest.
    destruct (hd_error (url_values v)); reflexivity.
Qed.

(** With no true top-level [url] and nothing strategy 2 can use under the
    output key taken, the image is the download of the URL the search
    finds, and there is no image when it finds none. *)
Theorem extract_falls_back_to_search (R : remote) (d : list (string * json)) :
  truthy (dict_get "url" d) = false ->
  usable_output
    (py_or (py_or (dict_get "output" d) (dict_get "outputs" d))
           (dict_get "results" d)) = false ->
  extract_image_bytes_from_result R (JDict d) =
    match find_first_url (JDict d) with
    | Some u => download R (JStr u)
    | None => Ok None
    end.
Proof.
  intros Hurl Hout. cbn [extract_image_bytes_from_result]. cbv zeta.
  rewrite Hurl, (from_output_unusable R _ Hout), find_first_url_truthy.
  destruct (find_first_url (JDict d)); reflexivity.
Qed.

Lemma extract_falls_back_to_search_witness :
  extract_image_bytes_from_result (running 0)
    (JDict [("output", JList [JStr "queued"; JDict [("url", JStr "http://x/b.png")]]);
            ("images", JList [JDict [("link", JStr "https://x/a.png")]])])
  = download (running 0) (JStr "http://x/b.png").
Proof.
  exact (extract_falls_back_to_search (running 0)
           [("output", JList [JStr "queued"; JDict [("url", JStr "http://x/b.png")]]);
            ("images", JList [JDict [("link", JStr "https://x/a.png")]])]
           eq_refl eq_refl).
Defined.

(** A true top-level [url] decides alone, whatever else the result holds:
    a failed download is raised, not passed over for the output list or
    the search; a body is returned with the content type of the answer,
    [image/png] without one; and an empty body is answered as a result
    without image. *)
Theorem top_level_url_decides (R : remote) (d : list (string * json)) :
  truthy (dict_get "url" d) = true ->
  (forall f, asset_ep R (dict_get "url" d) = Fails f ->
     extract_image_bytes_from_result R (JDict d) = Raise (RequestException f)) /\
  (forall content header,
     asset_ep R (dict_get "url" d) = Replied (content, header) ->
     extract_image_bytes_from_result R (JDict d) =
       Ok (Some (content,
                 match header with Some ct => ct | None => "image/png" end))) /\
  (forall header,
     asset_ep R (dict_get "url" d) = Replied ([], header) ->
     generate_image_finish (after_poll R (JDict d)) =
       JsonError 500 "No image found in inference result" (RawResult (JDict d))).
Proof.
  intros Hurl.
  assert (Hex : extract_image_bytes_from_result R (JDict d)
                = download R (dict_get "url" d))
    by (cbn [extract_image_bytes_from_result]; cbv zeta; rewrite Hurl;
        reflexivity).
  repeat split.
  - intros f Hf. rewrite Hex. unfold download. rewrite Hf. reflexivity.
  - intros content header Hr. rewrite Hex. unfold download. rewrite Hr.
    reflexivity.
  - intros header Hr. unfold after_poll. rewrite Hex. unfold download.
    rewrite Hr. reflexivity.
Qed.

Lemma top_level_url_decides_witness :
  extract_image_bytes_from_result (unreachable ConnectionError)
    (JDict [("url", JStr "http://x/img.png");
            ("output", JList [JDict [("base64", JStr "aGVsbG8=")]])])
  = Raise (RequestException ConnectionError).
Proof.
  exact (proj1 (top_level_url_decides (unreachable ConnectionError)
                  [("url", JStr "http://x/img.png");
                   ("output", JList [JDict [("base64", JStr "aGVsbG8=")]])]
                  eq_refl) ConnectionError eq_refl).
Defined.

(** Bytes that extraction returns come from the result: they are the body
    of the download of a true URL the result holds at its top level, in the
    first element of its output, or where the search finds it, with the
    content type of the answer or [image/png] without one; or they are the
    decoding of a true [base64], [b64] or [image] value of the first element
    of its output, with [image/png]. *)
Theorem extract_bytes_origin (R : remote) (result_json : json)
    (content : list byte) (content_type : string) :
  extract_image_bytes_from_result R result_json
    = Ok (Some (content, content_type)) ->
  exists d, result_json = JDict d /\
    ((exists url header,
        url_place d url /\ truthy url = true /\
        asset_ep R url = Replied (content, header) /\
        content_type
          = match header with Some ct => ct | None => "image/png" end) \/
     (exists b64data,
        inline_place d b64data /\ truthy b64data = true /\
        b64decode b64data = Ok content /\ content_type = "image/png")).
Proof.
  assert (Hdl : forall url,
    download R url = Ok (Some (content, content_type)) ->
    exists header,
      asset_ep R url = Replied (content, header) /\
      content_type = match header with Some ct => ct | None => "image/png" end).
  { intros url. unfold download.
    destruct (asset_ep R url) as [[body header]|f] eqn:Hep;
      cbn [of_reply bind fst snd]; intros H; inversion H; subst.
    exists header. auto. }
  assert (Hdec : forall v,
    decode_inline v = Ok (Some (content, content_type)) ->
    b64decode v = Ok content /\ content_type = "image/png").
  { intros v. unfold decode_inline.
    destruct (b64decode v) as [b|e] eqn:Hb; cbn [bind]; intros H;
      inversion H; subst. auto. }
  destruct result_json as [| | | | | |d]; cbn [extract_image_bytes_from_result];
    try discriminate.
  cbv zeta. intros Hrun. exists d. split; [reflexivity|].
  destruct (truthy (dict_get "url" d)) eqn:Htop.
  { destruct (Hdl _ Hrun) as (header & Hep & Hct).
    left. exists (dict_get "url" d), header. unfold url_place. auto. }
  fold (output_of d) in Hrun.
  destruct (from_output R (output_of d)) as [r|] eqn:Hfrom.
  - subst r. unfold from_output in Hfrom.
    destruct (output_of d) as [| | | | |[|[| | | | | |item] rest]|] eqn:Hout;
      try discriminate Hfrom.
    destruct (truthy (dict_get "url" item)) eqn:Hurl.
    { injection Hfrom as Hfrom. destruct (Hdl _ Hfrom) as (header & Hep & Hct).
      left. exists (dict_get "url" item), header.
      split; [right; left; eauto|]. auto. }
    destruct (truthy (dict_get "base64" item)) eqn:H64; cbn [orb] in Hfrom.
    { injection Hfrom as Hfrom. unfold py_or in Hfrom. rewrite H64 in Hfrom.
      destruct (Hdec _ Hfrom) as [Hb Hct].
      right. exists (dict_get "base64" item).
      split; [exists item, rest; auto|]. auto. }
    destruct (truthy (dict_get "b64" item)) eqn:Hb64.
    { injection Hfrom as Hfrom. unfold py_or in Hfrom. rewrite H64 in Hfrom.
      destruct (Hdec _ Hfrom) as [Hb Hct].
      right. exists (dict_get "b64" item).
      split; [exists item, rest; auto|]. auto. }
    destruct (truthy (dict_get "image" item)) eqn:Himg; cbn [andb] in Hfrom;
      [|discriminate Hfrom].
    destruct (is_str (dict_get "image" item)); [|discriminate Hfrom].
    injection Hfrom as Hfrom. destruct (Hdec _ Hfrom) as [Hb Hct].
    right. exists (dict_get "image" item).
    split; [exists item, rest; auto|]. auto.
  - destruct (find_first_url (JDict d)) as [u|] eqn:Hfound;
      cbn [found_truthy] in Hrun; [|discriminate Hrun].
    destruct (negb (u =? "")%string) eqn:Hu; [|discriminate Hrun].
    destruct (Hdl _ Hrun) as (header & Hep & Hct).
    left. exists (JStr u), header.
    split; [right; right; eauto|]. auto.
Qed.

Lemma extract_bytes_origin_witness :
  exists d,
    JDict [("output", JList [JDict [("base64", JStr "aGVsbG8=")]])] = JDict d /\
    ((exists url header,
        url_place d url /\ truthy url = true /\
        asset_ep (running 0) url = Replied (bytes_of_string "hello", header) /\
        "image/png"
          = match header with Some ct => ct | None => "image/png" end) \/
     (exists b64data,
        inline_place d b64data /\ truthy b64data = true /\
        b64decode b64data = Ok (bytes_of_string "hello") /\
        "image/png" = "image/png")).
Proof.
  exact (extract_bytes_origin (running 0)
           (JDict [("output", JList [JDict [("base64", JStr "aGVsbG8=")]])])
           (bytes_of_string "hello") "image/png" eq_refl).
Defined.

(** ** Edge cases of base64 decoding *)

Lemma in_alphabet_value (c : ascii) :
  in_alphabet c = true -> exists v, b64_value c = Some v.
Proof. unfold in_alphabet. destruct (b64_value c); [eauto|discriminate]. Qed.

Lemma a2b_loop_significant (s : string) : forall quad_pos leftchar pads acc,
  a2b_loop (significant s) quad_pos leftchar pads acc
  = a2b_loop s quad_pos leftchar pads acc.
Proof.
  induction s as [|c s IH]; intros q l p acc; [reflexivity|].
  cbn [significant]. unfold in_alphabet.
  destruct (Ascii.eqb c "=") eqn:Hpad; cbn [orb].
  - cbn [a2b_loop]. rewrite Hpad.
    destruct (2 <=? q)%N; [destruct (4 <=? q + (p + 1))%N|];
      try reflexivity; apply IH.
  - destruct (b64_value c) as [v|] eqn:Hv.
    + cbn [a2b_loop]. rewrite Hpad, Hv.
      destruct q as [|[[| |]|[| |]|]]; apply IH.
    + cbn [a2b_loop]. rewrite Hpad, Hv. apply IH.
Qed.

Lemma table_alphabet_ascii :
  forallb (fun c => implb (Ascii.eqb c "=" || in_alphabet c) (is_ascii c))
          all_ascii = true.
Proof. vm_compute. reflexivity. Qed.

Lemma significant_ascii (s : string) : ascii_only (significant s) = true.
Proof.
  unfold ascii_only. induction s as [|c s IH]; [reflexivity|].
  cbn [significant].
  destruct (Ascii.eqb c "=" || in_alphabet c) eqn:Hc; [|exact IH].
  cbn [list_ascii_of_string forallb]. rewrite IH, andb_true_r.
  pose proof table_alphabet_ascii as T. rewrite forallb_forall in T.
  specialize (T c (all_ascii_complete c)). rewrite Hc in T. exact T.
Qed.

(** Characters that are neither in the alphabet nor the pad, such as line
    breaks and spaces, do not change what an ASCII string decodes to: they
    are neither data nor an error. *)
Lemma b64decode_skips_other_characters (s : string) :
  ascii_only s = true ->
  b64decode (JStr s) = b64decode (JStr (significant s)).
Proof.
  intros Hs. unfold b64decode. fold (ascii_only s).
  fold (ascii_only (significant s)).
  rewrite Hs, significant_ascii. unfold a2b_base64.
  symmetry. apply a2b_loop_significant.
Qed.


Lemma in_alphabet_not_pad (c : ascii) :
  in_alphabet c = true -> Ascii.eqb c "=" = false.
Proof.
  intros H. destruct (Ascii.eqb c "=") eqn:Hc; [|reflexivity].
  apply Ascii.eqb_eq in Hc. subst c. discriminate H.
Qed.

Lemma a2b_loop_alphabet (s : string) : forall quad_pos leftchar pads acc,
  all_alphabet s = true ->
  (quad_pos < 4)%N ->
  match a2b_loop s quad_pos leftchar pads acc with
  | Ok content =>
      (exists k, N.to_nat quad_pos + String.length s = 4 * k)%nat /\
      (4 * (List.length content + written_in_quad quad_pos)
       = 4 * List.length acc + 3 * (N.to_nat quad_pos + String.length s))%nat
  | Raise e =>
      e = BinasciiError /\
      forall k, (N.to_nat quad_pos + String.length s <> 4 * k)%nat
  end.
Proof.
  unfold all_alphabet.
  induction s as [|c s IH]; intros q l p acc Hs Hq.
  - cbn [a2b_loop String.length].
    destruct q as [|[[| |]|[| |]|]]; cbn; try lia.
    + split; [exists 0%nat; reflexivity|]. rewrite length_rev. lia.
    + split; [reflexivity|]. intros k. lia.
    + split; [reflexivity|]. intros k. lia.
    + split; [reflexivity|]. intros k. lia.
  - cbn [list_ascii_of_string forallb] in Hs. apply andb_prop in Hs.
    destruct Hs as [Hc Hs].
    cbn [a2b_loop]. rewrite (in_alphabet_not_pad c Hc).
    destruct (in_alphabet_value c Hc) as [v ->].
    cbn [String.length].
    destruct q as [|[[| |]|[| |]|]]; try lia;
      match goal with
      | |- match a2b_loop s ?q' ?l' ?p' ?acc' with _ => _ end =>
          specialize (IH q' l' p' acc' Hs eq_refl);
          destruct (a2b_loop s q' l' p' acc') as [content|e]
      end;
      try (destruct IH as [[k Hk] Hlen]; cbn in *;
           split; [first [exists k; lia | exists (S k); lia] | lia]);
      destruct IH as [-> Hno]; (split; [reflexivity|]); intros k;
      try (specialize (Hno k); cbn in *; lia);
      destruct k as [|k]; [cbn; lia|]; specialize (Hno k); cbn in *; lia.
Qed.

Lemma alphabet_is_ascii (s : string) :
  all_alphabet s = true -> ascii_only s = true.
Proof.
  unfold all_alphabet, ascii_only.
  induction s as [|c s IH]; [reflexivity|].
  cbn [list_ascii_of_string forallb]. intros H. apply andb_prop in H.
  destruct H as [Hc Hs]. rewrite (IH Hs), andb_true_r.
  pose proof table_alphabet_ascii as T. rewrite forallb_forall in T.
  specialize (T c (all_ascii_complete c)).
  rewrite Hc, orb_true_r in T. exact T.
Qed.

(** A string of alphabet characters without padding decodes exactly when
    its length is a multiple of four, to three bytes for every four
    characters; any other length is the error of [binascii]: the padding
    is not optional. *)
Lemma b64decode_without_padding (s : string) :
  all_alphabet s = true ->
  match b64decode (JStr s) with
  | Ok content =>
      (exists k, String.length s = 4 * k)%nat /\
      (4 * List.length content = 3 * String.length s)%nat
  | Raise e =>
      e = BinasciiError /\ forall k, (String.length s <> 4 * k)%nat
  end.
Proof.
  intros Hs. unfold b64decode. fold (ascii_only s).
  rewrite (alphabet_is_ascii s Hs). unfold a2b_base64.
  pose proof (a2b_loop_alphabet s 0 0 0 [] Hs eq_refl) as H.
  destruct (a2b_loop s 0 0 0 []) as [content|e].
  - destruct H as [[k Hk] Hlen]. cbn in *. split; [exists k|]; lia.
  - destruct H as [-> Hno]. split; [reflexivity|].
    intros k. specialize (Hno k). cbn in *. lia.
Qed.


Lemma a2b_loop_b64encode_then (content : list byte) : forall acc tail,
  (List.length content mod 3 <> 0)%nat ->
  a2b_loop (b64encode content ++ tail)%string 0 0 0 acc
  = Ok (rev acc ++ content).
Proof.
  induction content as [|a|a b|a b c rest IH] using list_ind3;
    intros acc tail Hlen.
  - exfalso. apply Hlen. reflexivity.
  - cbn [b64encode String.append]. cbv zeta.
    pose proof (pair_facts (Byte.to_N a) 0 (to_N_below a) eq_refl) as H.
    split_facts H.
    rewrite !a2b_loop_char by assumption.
    match goal with X : _ = Byte.to_N a |- _ => rewrite X end.
    rewrite byte_of_to_N. reflexivity.
  - cbn [b64encode String.append]. cbv zeta.
    pose proof (pair_facts (Byte.to_N a) (Byte.to_N b)
                  (to_N_below a) (to_N_below b)) as Hab.
    split_facts Hab.
    pose proof (pair_facts (Byte.to_N b) 0 (to_N_below b) eq_refl) as Hb.
    split_facts Hb.
    rewrite !a2b_loop_char by assumption.
    repeat match goal with
           | X : N.lor _ _ = Byte.to_N _ |- _ => rewrite X; clear X
           | X : N.land _ 15 = _ |- _ => rewrite X; clear X
           end.
    rewrite !byte_of_to_N. cbn [a2b_loop]. cbn.
    rewrite <- app_assoc. reflexivity.
  - cbn [b64encode String.append]. cbv zeta.
    pose proof (pair_facts (Byte.to_N a) (Byte.to_N b)
                  (to_N_below a) (to_N_below b)) as Hab.
    split_facts Hab.
    pose proof (pair_facts (Byte.to_N b) (Byte.to_N c)
                  (to_N_below b) (to_N_below c)) as Hbc.
    split_facts Hbc.
    pose proof (pair_facts (Byte.to_N c) 0 (to_N_below c) eq_refl) as Hc.
    split_facts Hc.
    rewrite !a2b_loop_char by assumption.
    repeat match goal with
           | X : N.lor _ _ = Byte.to_N _ |- _ => rewrite X; clear X
           | X : N.land _ 15 = _ |- _ => rewrite X; clear X
           end.
    cbv iota. rewrite !byte_of_to_N, IH.
    + cbn [rev]. rewrite <- !app_assoc. reflexivity.
    + intros Hrest. apply Hlen. cbn [List.length].
      replace (S (S (S (List.length rest))))
        with (List.length rest + 1 * 3)%nat by lia.
      rewrite Nat.Div0.mod_add. exact Hrest.
Qed.

Lemma ascii_only_app (s1 s2 : string) :
  ascii_only (s1 ++ s2)%string = ascii_only s1 && ascii_only s2.
Proof.
  unfold ascii_only. induction s1 as [|c s1 IH]; [reflexivity|].
  cbn [String.append list_ascii_of_string forallb].
  rewrite IH, andb_assoc. reflexivity.
Qed.

(** Once the padding has closed the last quad, decoding stops: whatever
    follows the standard encoding of a byte sequence whose length is no
    multiple of three is ignored, without an error. *)
Lemma b64decode_ignores_data_after_padding (content : list byte)
    (tail : string) :
  (List.length content mod 3 <> 0)%nat ->
  ascii_only tail = true ->
  b64decode (JStr (b64encode content ++ tail)%string) = Ok content.
Proof.
  intros Hlen Htail. unfold b64decode.
  fold (ascii_only (b64encode content ++ tail)%string).
  rewrite ascii_only_app, Htail. unfold ascii_only at 1.
  rewrite b64encode_is_ascii. cbn [andb]. unfold a2b_base64.
  rewrite (a2b_loop_b64encode_then content [] tail Hlen). reflexivity.
Qed.


(** *** Inline image data *)

Lemma extract_inline_result (R : remote) (s : string) :
  s <> "" ->
  extract_image_bytes_from_result R (inline_result (JStr s))
  = decode_inline (JStr s).
Proof.
  intros Hs. destruct s as [|c s]; [contradiction|]. reflexivity.
Qed.

(** In inline image data, characters that are neither in the base64
    alphabet nor the pad, such as line breaks and spaces, are passed over:
    the image is the one the remaining characters decode to. *)
Theorem inline_data_skips_other_characters (R : remote) (s : string) :
  ascii_only s = true ->
  s <> "" ->
  extract_image_bytes_from_result R (inline_result (JStr s))
  = decode_inline (JStr (significant s)).
Proof.
  intros Hascii Hs. rewrite (extract_inline_result R s Hs).
  unfold decode_inline. rewrite (b64decode_skips_other_characters s Hascii).
  reflexivity.
Qed.

Lemma inline_data_skips_other_characters_witness :
  extract_image_bytes_from_result (running 0)
    (inline_result (JStr ("aGVs" ++ String (ascii_of_nat 10) "bG8=")%string))
  = decode_inline (JStr "aGVsbG8=").
Proof.
  exact (inline_data_skips_other_characters (running 0)
           ("aGVs" ++ String (ascii_of_nat 10) "bG8=")%string
           eq_refl ltac:(discriminate)).
Defined.

(** Inline image data made of alphabet characters only, without padding,
    yields an image exactly when its length is a multiple of four, of three
    bytes for every four characters and with content type [image/png]; for
    any other length extraction raises the error of [binascii]. *)
Theorem inline_data_without_padding (R : remote) (s : string) :
  all_alphabet s = true ->
  s <> "" ->
  match extract_image_bytes_from_result R (inline_result (JStr s)) with
  | Ok (Some (content, content_type)) =>
      (exists k, String.length s = 4 * k)%nat /\
      (4 * List.length content = 3 * String.length s)%nat /\
      content_type = "image/png"
  | Ok None => False
  | Raise e => e = BinasciiError /\ forall k, (String.length s <> 4 * k)%nat
  end.
Proof.
  intros Halpha Hs. rewrite (extract_inline_result R s Hs).
  unfold decode_inline.
  pose proof (b64decode_without_padding s Halpha) as H.
  destruct (b64decode (JStr s)) as [content|e]; cbn [bind].
  - destruct H as [Hk Hlen]. auto.
  - exact H.
Qed.

Lemma inline_data_without_padding_witness :
  BinasciiError = BinasciiError /\
  forall k, (String.length "aGVsbG8" <> 4 * k)%nat.
Proof.
  exact (inline_data_without_padding (running 0) "aGVsbG8" eq_refl
           ltac:(discriminate)).
Defined.

Lemma b64encode_not_empty (content : list byte) :
  content <> [] -> b64encode content <> "".
Proof.
  destruct content as [|a [|b [|c rest]]]; [contradiction| | |];
    intros _; discriminate.
Qed.

(** In inline image data whatever follows the closing padding is ignored:
    the standard encoding of a byte sequence whose length is no multiple of
    three, followed by any ASCII text, yields that byte sequence. *)
Theorem inline_data_ignored_after_padding (R : remote) (content : list byte)
    (tail : string) :
  (List.length content mod 3 <> 0)%nat ->
  ascii_only tail = true ->
  extract_image_bytes_from_result R
    (inline_result (JStr (b64encode content ++ tail)%string))
  = Ok (Some (content, "image/png")).
Proof.
  intros Hlen Htail. rewrite extract_inline_result.
  - unfold decode_inline.
    rewrite (b64decode_ignores_data_after_padding content tail Hlen Htail).
    reflexivity.
  - assert (Hne : b64encode content <> "").
    { apply b64encode_not_empty. intros ->. apply Hlen. reflexivity. }
    destruct (b64encode content); [contradiction|discriminate].
Qed.

Lemma inline_data_ignored_after_padding_witness :
  extract_image_bytes_from_result (running 0)
    (inline_result
       (JStr (b64encode (bytes_of_string "hello") ++ "!garbage")%string))
  = Ok (Some (bytes_of_string "hello", "image/png")).
Proof.
  exact (inline_data_ignored_after_padding (running 0)
           (bytes_of_string "hello") "!garbage" ltac:(discriminate) eq_refl).
Defined.

(** ** The input payload *)

Lemma has_key_in (k : string) (d : list (string * json)) :
  has_key k d = true <-> In k (keys d).
Proof.
  unfold keys. induction d as [|[k' v] d IH]; cbn [has_key map fst In].
  - split; [discriminate|tauto].
  - rewrite orb_true_iff, IH, String.eqb_eq. tauto.
Qed.

Lemma dict_get_set_same (k : string) (v : json) (d : list (string * json)) :
  dict_get k (dict_set k v d) = v.
Proof.
  induction d as [|[k' v'] d IH]; cbn [dict_set dict_get].
  - rewrite String.eqb_refl. reflexivity.
  - destruct (k' =? k)%string eqn:Hk; cbn [dict_get].
    + rewrite String.eqb_refl. reflexivity.
    + rewrite Hk. exact IH.
Qed.

Lemma dict_get_set_other (k k0 : string) (v : json) (d : list (string * json)) :
  k0 <> k -> dict_get k (dict_set k0 v d) = dict_get k d.
Proof.
  intros Hne. apply String.eqb_neq in Hne.
  induction d as [|[k' v'] d IH]; cbn [dict_set dict_get].
  - rewrite Hne. reflexivity.
  - destruct (k' =? k0)%string eqn:Hk; cbn [dict_get].
    + apply String.eqb_eq in Hk. subst k'. rewrite Hne. reflexivity.
    + rewrite IH. reflexivity.
Qed.

Lemma keys_dict_set (k : string) (v : json) (d : list (string * json)) :
  keys (dict_set k v d) = if has_key k d then keys d else keys d ++ [k].
Proof.
  unfold keys. induction d as [|[k' v'] d IH]; cbn [dict_set has_key map fst];
    [reflexivity|].
  destruct (k' =? k)%string eqn:Hk; cbn [orb map fst].
  - apply String.eqb_eq in Hk. subst k'. reflexivity.
  - rewrite IH. destruct (has_key k d); reflexivity.
Qed.

Lemma nodup_dict_set (k : string) (v : json) (d : list (string * json)) :
  NoDup (keys d) -> NoDup (keys (dict_set k v d)).
Proof.
  intros Hd. rewrite keys_dict_set.
  destruct (has_key k d) eqn:Hk; [exact Hd|].
  apply NoDup_app; [exact Hd|repeat constructor; intros []|].
  intros x Hx [<-|[]]. apply has_key_in in Hx. congruence.
Qed.

Lemma hd_dict_set (k : string) (v : json) (d : list (string * json)) (k1 : string) :
  hd_error (keys d) = Some k1 -> hd_error (keys (dict_set k v d)) = Some k1.
Proof.
  destruct d as [|[k' v'] d]; [discriminate|].
  cbn [dict_set]. destruct (k' =? k)%string eqn:Hk; [|trivial].
  apply String.eqb_eq in Hk. subst k'. trivial.
Qed.

Lemma fold_dict_set (k : string) (items : list (string * json)) :
  forall acc,
  NoDup (keys items) ->
  let merged :=
    fold_left (fun acc kv => dict_set (fst kv) (snd kv) acc) items acc in
  dict_get k merged =
    (if has_key k items then dict_get k items else dict_get k acc) /\
  (NoDup (keys acc) -> NoDup (keys merged)) /\
  (forall k1, hd_error (keys acc) = Some k1 -> hd_error (keys merged) = Some k1).
Proof.
  cbv zeta. induction items as [|[k0 v0] items IH]; intros acc Hnd.
  - cbn. auto.
  - cbn [keys map fst] in Hnd. inversion Hnd as [|? ? Hnotin Hnd']; subst.
    cbn [fold_left fst snd has_key dict_get].
    destruct (IH (dict_set k0 v0 acc) Hnd') as (Hget & Hkeep & Hhd).
    split; [|split].
    + rewrite Hget. destruct (k0 =? k)%string eqn:Hk; cbn [orb].
      * apply String.eqb_eq in Hk. subst k0.
        destruct (has_key k items) eqn:Hin.
        -- apply has_key_in in Hin. contradiction.
        -- apply dict_get_set_same.
      * destruct (has_key k items); [reflexivity|].
        apply dict_get_set_other. apply String.eqb_neq, Hk.
    + intros Hacc. apply Hkeep, nodup_dict_set, Hacc.
    + intros k1 Hk1. apply Hhd, hd_dict_set, Hk1.
Qed.

(** The payload sent as [input] holds the options and the prompt, the
    prompt first and each key once; a [prompt] among the options replaces
    the prompt of the request, the one that was checked to be present; and
    options that are no dict are a [TypeError]. *)
Theorem build_input_lookup (prompt options : json) :
  (forall items,
     options = JDict items -> NoDup (keys items) ->
     exists d,
       build_input prompt options = Ok (JDict d) /\
       NoDup (keys d) /\
       hd_error (keys d) = Some "prompt" /\
       forall k,
         dict_get k d =
           if has_key k items then dict_get k items
           else if (k =? "prompt")%string then prompt else JNull) /\
  ((forall items, options <> JDict items) ->
   build_input prompt options = Raise TypeError).
Proof.
  split.
  - intros items -> Hnd. cbn [build_input]. eexists. split; [reflexivity|].
    destruct (fold_dict_set "prompt" items [("prompt", prompt)] Hnd)
      as (_ & Hkeep & Hhd).
    split; [|split].
    + apply Hkeep. repeat constructor. intros [].
    + apply Hhd. reflexivity.
    + intros k.
      destruct (fold_dict_set k items [("prompt", prompt)] Hnd) as (Hget & _).
      rewrite Hget. cbn [dict_get]. rewrite (String.eqb_sym "prompt" k).
      reflexivity.
  - intros Hno. destruct options; try reflexivity.
    exfalso. exact (Hno _ eq_refl).
Qed.

Lemma build_input_lookup_witness :
  exists d,
    build_input (JStr "a cat")
      (JDict [("seed", JInt 7); ("prompt", JStr "a dog")]) = Ok (JDict d) /\
    NoDup (keys d) /\
    hd_error (keys d) = Some "prompt" /\
    forall k,
      dict_get k d =
        if has_key k [("seed", JInt 7); ("prompt", JStr "a dog")]
        then dict_get k [("seed", JInt 7); ("prompt", JStr "a dog")]
        else if (k =? "prompt")%string then JStr "a cat" else JNull.
Proof.
  apply (proj1 (build_input_lookup (JStr "a cat")
                  (JDict [("seed", JInt 7); ("prompt", JStr "a dog")]))
           [("seed", JInt 7); ("prompt", JStr "a dog")] eq_refl).
  repeat constructor; cbn; intuition discriminate.
Defined.

(** ** Answers of the handlers *)

Lemma after_poll_got (R : remote) (final_result : json)
    (img_bytes : list byte) (content_type : string) :
  after_poll R final_result = Ok (Got img_bytes content_type) ->
  img_bytes <> [] /\
  extract_image_bytes_from_result R final_result
    = Ok (Some (img_bytes, content_type)).
Proof.
  unfold after_poll.
  destruct (extract_image_bytes_from_result R final_result)
    as [[[[|b bs] ct]|]|e]; cbn [bind]; intros H; inversion H; subst.
  split; [discriminate|reflexivity].
Qed.

(** How the shared flow ends, by what it went through. *)
Lemma inference_cases (cfg : config) (R : remote) (fuel : nat)
    (prompt model_id options : json) (w : world) (o : res flow) :
  inference cfg R fuel prompt model_id options w = Some o ->
  o = Raise TypeError \/
  o = Raise AttributeError \/
  (exists f body, o = Raise (RequestException f) /\ invoke_ep R body = Fails f) \/
  (exists start_resp, o = Ok (Malformed start_resp)) \/
  (exists request_id e w',
     truthy request_id = true /\
     poll_until_complete fuel R request_id
       (DEFAULT_POLL_TIMEOUT cfg) (DEFAULT_POLL_INTERVAL cfg) w
       = Some (Raise e, w') /\
     o = Raise e) \/
  (exists request_id final_result w',
     truthy request_id = true /\
     poll_until_complete fuel R request_id
       (DEFAULT_POLL_TIMEOUT cfg) (DEFAULT_POLL_INTERVAL cfg) w
       = Some (Ok final_result, w') /\
     o = after_poll R final_result).
Proof.
  unfold inference. intros Hrun.
  destruct (build_input prompt options) as [input_payload|e0] eqn:Hin.
  2:{ inversion Hrun; subst o. unfold build_input in Hin.
      destruct options; inversion Hin; auto. }
  unfold start_async_inference in Hrun. cbn [truthy] in Hrun.
  destruct (invoke_ep R _) as [start_resp|f] eqn:Hep; cbn [of_reply] in Hrun.
  2:{ inversion Hrun; subst o. right; right; left. eauto. }
  destruct (request_id_of start_resp) as [request_id|e0] eqn:Hid.
  2:{ inversion Hrun; subst o. unfold request_id_of in Hid.
      destruct start_resp; inversion Hid; auto. }
  destruct (truthy request_id) eqn:Htrue; cbn [negb] in Hrun.
  2:{ inversion Hrun; subst o. right; right; right; left. eauto. }
  destruct (poll_until_complete fuel R request_id _ _ w)
    as [[[final_result|e] w']|] eqn:Hpoll; [| |discriminate].
  - inversion Hrun; subst o. do 5 right. exists request_id, final_result, w'.
    auto.
  - inversion Hrun; subst o. do 4 right. left. exists request_id, e, w'. auto.
Qed.

(** The answers to a request whose body Flask parsed. *)
Lemma generate_image_parsed_answers (cfg : config) (R : remote) (fuel : nat)
    (request_json : json) (w : world) (r : response) :
  generate_image cfg R fuel request_json w = Some r ->
  match r with
  | SendFile content mimetype => content <> [] /\ mimetype <> ""
  | JsonError status _ _ =>
      status = 400 \/ status = 500 \/ status = 502 \/ status = 504
  | Unhandled e =>
      e = AttributeError /\ truthy request_json = true /\
      forall data, request_json <> JDict data
  | Uploaded _ _ => False
  end.
Proof.
  unfold generate_image, read_request.
  destruct (key_missing cfg); [intros H; inversion H; auto|].
  unfold py_or.
  destruct (truthy request_json) eqn:Htrue.
  - destruct request_json as [| | | | | |data];
      try (intros H; inversion H; repeat split; auto; discriminate).
    destruct (negb (truthy (dict_get "prompt" data)));
      [intros H; inversion H; auto|].
    destruct (inference _ _ _ _ _ _ _) as [o|] eqn:Hinf; [|discriminate].
    cbn [option_map]. intros H; inversion H; subst r; clear H.
    destruct o as [[resp|fr|img ct]|e]; cbn [generate_image_finish]; auto.
    + destruct (inference_cases _ _ _ _ _ _ _ _ Hinf)
        as [H|[H|[(f & body & H & _)|[(resp & H)|[(rid & e & w' & _ & _ & H)
           |(rid & fr & w' & _ & _ & H)]]]]]; try discriminate H.
      symmetry in H. destruct (after_poll_got _ _ _ _ H) as [Hne _].
      split; [exact Hne|].
      destruct (ct =? "")%string eqn:Hct; [discriminate|].
      apply String.eqb_neq, Hct.
    + destruct e as [[]| | | | | | | | |]; cbn [generate_image_except]; auto.
  - cbn [negb dict_get truthy]. intros H; inversion H; auto.
Qed.

(** [generate_image] never sends an empty file or an empty content type,
    answers every failure of the flow as JSON with status 400, 500, 502 or
    504, and lets an exception escape in two cases only, both before the
    [try]: the exception of [request.json] for a body Flask does not take
    as JSON, and the [AttributeError] of [.get] for a parsed body that is
    true and no dict. *)
Theorem generate_image_answers (cfg : config) (R : remote) (fuel : nat)
    (body : request_body) (w : world) (r : response) :
  generate_image_view cfg R fuel body w = Some r ->
  match r with
  | SendFile content mimetype => content <> [] /\ mimetype <> ""
  | JsonError status _ _ =>
      status = 400 \/ status = 500 \/ status = 502 \/ status = 504
  | Unhandled e =>
      (exists code, body = NotParsed code /\ e = HTTPException code) \/
      (exists request_json,
         body = Parsed request_json /\
         e = AttributeError /\ truthy request_json = true /\
         forall data, request_json <> JDict data)
  | Uploaded _ _ => False
  end.
Proof.
  destruct body as [request_json|code]; cbn [generate_image_view].
  - intros H. apply generate_image_parsed_answers in H.
    destruct r as [content mimetype|url filename|status error more|e];
      try exact H.
    right. exists request_json. split; [reflexivity|exact H].
  - destruct (key_missing cfg); intros H; inversion H; subst r; eauto.
Qed.

Lemma generate_image_answers_witness :
  bytes_of_string "hi" <> [] /\ "image/png" <> "".
Proof.
  exact (generate_image_answers defaults
           (reporting (JDict [("status", JStr "COMPLETE")])
                      (JDict [("output", JList [JDict [("b64", JStr "aGk=")]])]))
           1 (Parsed (JDict [("prompt", JStr "a cat")])) boot
           (SendFile (bytes_of_string "hi") "image/png") eq_refl).
Defined.

(** [generate_image] answers 504 only after the timeout has passed while
    polling, and 502 only when one of the four remote endpoints answered
    with an HTTP error status. *)
Theorem generate_image_gateway_statuses (cfg : config) (R : remote)
    (fuel : nat) (request_json : json) (w : world)
    (status : Z) (error : string) (more : extra) :
  generate_image cfg R fuel request_json w
    = Some (JsonError status error more) ->
  (status = 504 ->
   exists request_id w',
     poll_until_complete fuel R request_id
       (DEFAULT_POLL_TIMEOUT cfg) (DEFAULT_POLL_INTERVAL cfg) w
       = Some (Raise (TimeoutError (DEFAULT_POLL_TIMEOUT cfg)), w') /\
     1000 * DEFAULT_POLL_TIMEOUT cfg < now w' - now w) /\
  (status = 502 ->
   exists code,
     (exists body, invoke_ep R body = Fails (HTTPError code)) \/
     (exists request_id n,
        snd (status_ep R request_id n) = Fails (HTTPError code)) \/
     (exists request_id, result_ep R request_id = Fails (HTTPError code)) \/
     (exists url, asset_ep R url = Fails (HTTPError code))).
Proof.
  unfold generate_image.
  destruct (read_request cfg request_json) as [r0|[[prompt model_id] options]]
    eqn:Hread.
  { unfold read_request in Hread.
    destruct (key_missing cfg);
      [inversion Hread; subst; intros H; inversion H; subst; split; discriminate|].
    destruct (py_or request_json (JDict [])); try discriminate Hread;
      try (inversion Hread; subst; discriminate).
    destruct (negb _); inversion Hread; subst.
    intros H; inversion H; subst; split; discriminate. }
  destruct (inference _ _ _ _ _ _ _) as [o|] eqn:Hinf; [|discriminate].
  cbn [option_map]. intros H. injection H as Hfin.
  pose proof (inference_cases _ _ _ _ _ _ _ _ Hinf) as Hcases.
  destruct o as [[resp|fr|img ct]|e]; cbn [generate_image_finish] in Hfin;
    try (inversion Hfin; subst; split; discriminate).
  destruct Hcases
    as [H|[H|[(f & body & H & Hf)|[(resp & H)|[(rid & e' & w' & _ & Hpoll & H)
       |(rid & fr & w' & _ & Hpoll & H)]]]]]; try discriminate H.
  - inversion H; subst e. inversion Hfin; subst. split; discriminate.
  - inversion H; subst e. inversion Hfin; subst. split; discriminate.
  - inversion H; subst e.
    destruct f; cbn [generate_image_except] in Hfin; inversion Hfin; subst;
      split; try discriminate.
    intros _. exists status_code. left. eauto.
  - inversion H; subst e'.
    pose proof Hpoll as Hloop. unfold poll_until_complete, time_time in Hloop.
    destruct (loop_raises _ _ _ _ _ _ _ _ _ Hloop)
      as [[-> Hlate] | [(n & payload & sv & -> & _)
         | [(f & -> & Hf) | [-> | [-> | [-> | ->]]]]]];
      cbn [generate_image_except] in Hfin.
    + inversion Hfin; subst. split; [|discriminate].
      intros _. exists rid, w'. auto.
    + inversion Hfin; subst. split; discriminate.
    + destruct f; inversion Hfin; subst; split; try discriminate.
      intros _. exists status_code. right.
      destruct Hf as [[n Hn]|Hres]; [left|right; left]; eauto.
    + inversion Hfin; subst. split; discriminate.
    + inversion Hfin; subst. split; discriminate.
    + inversion Hfin; subst. split; discriminate.
    + inversion Hfin; subst. split; discriminate.
  - symmetry in H. apply after_poll_raises in H.
    destruct (extract_raises _ _ _ H)
      as [(f & url & -> & Hf) | [-> | [-> | [-> | ->]]]];
      cbn [generate_image_except] in Hfin;
      try (inversion Hfin; subst; split; discriminate).
    destruct f; inversion Hfin; subst; split; try discriminate.
    intros _. exists status_code. do 3 right. eauto.
Qed.

Lemma generate_image_gateway_statuses_witness :
  exists code,
    (exists body,
       invoke_ep (unreachable (HTTPError 503)) body = Fails (HTTPError code)) \/
    (exists request_id n,
       snd (status_ep (unreachable (HTTPError 503)) request_id n)
         = Fails (HTTPError code)) \/
    (exists request_id,
       result_ep (unreachable (HTTPError 503)) request_id
         = Fails (HTTPError code)) \/
    (exists url,
       asset_ep (unreachable (HTTPError 503)) url = Fails (HTTPError code)).
Proof.
  exact (proj2 (generate_image_gateway_statuses defaults
                  (unreachable (HTTPError 503)) 1
                  (JDict [("prompt", JStr "a cat")]) boot
                  502 "HTTP error during inference"
                  (Details (RequestException (HTTPError 503))) eq_refl)
           eq_refl).
Defined.

(** A run in which all goes well: the submit response names the job, the
    first status is in the success tuple, and extraction yields bytes; then
    [generate_image] sends those bytes, with the content type extraction
    gave or [image/png] for an empty one, after a single status request. *)
Theorem generate_image_success (cfg : config) (R : remote) (fuel : nat)
    (request_json prompt model_id options input_payload : json) (w : world)
    (d : list (string * json)) (took : N) (payload : json)
    (status_val : string) (final_result : json)
    (b : byte) (bs : list byte) (content_type : string) :
  read_request cfg request_json = inr (prompt, model_id, options) ->
  build_input prompt options = Ok input_payload ->
  invoke_ep R (JDict [("model_id", model_id); ("input", input_payload)])
    = Replied (JDict d) ->
  let request_id :=
    py_or (py_or (dict_get "request_id" d) (dict_get "id" d))
          (dict_get "requestId" d) in
  truthy request_id = true ->
  status_ep R request_id (polls w) = (took, Replied payload) ->
  status_val_of payload = Ok status_val ->
  in_tuple status_val success_words = true ->
  result_ep R request_id = Replied final_result ->
  extract_image_bytes_from_result R final_result
    = Ok (Some (b :: bs, content_type)) ->
  generate_image cfg R (S fuel) request_json w =
    Some (SendFile (b :: bs)
            (if (content_type =? "")%string then "image/png"
             else content_type)).
Proof.
  intros Hread Hin Hep request_id Hid Hst Hval Hsucc Hres Hex.
  unfold generate_image. rewrite Hread.
  rewrite (inference_after_submit _ _ _ _ _ _ _ _ _ Hin Hep). cbv zeta.
  fold request_id. rewrite Hid.
  unfold poll_until_complete, time_time. rewrite poll_loop_turn.
  rewrite (iteration_success _ _ _ _ _ (log (EvNow (now w)) w) _ _ _
             Hst Hval Hsucc).
  rewrite Hres. cbn [of_reply option_map]. unfold after_poll. rewrite Hex.
  reflexivity.
Qed.

Lemma generate_image_success_witness :
  generate_image defaults
    (reporting (JDict [("status", JStr "COMPLETE")])
               (JDict [("url", JStr "http://x/img.png")]))
    1 (JDict [("prompt", JStr "a cat")]) boot
  = Some (SendFile [x89%byte; x50%byte] "image/png").
Proof.
  exact (generate_image_success defaults
           (reporting (JDict [("status", JStr "COMPLETE")])
                      (JDict [("url", JStr "http://x/img.png")]))
           0 (JDict [("prompt", JStr "a cat")])
           (JStr "a cat") (JStr "fal-ai/flux/schnell") (JDict [])
           (JDict [("prompt", JStr "a cat")]) boot
           [("request_id", JStr "abc")] 0%N
           (JDict [("status", JStr "COMPLETE")]) "COMPLETE"
           (JDict [("url", JStr "http://x/img.png")])
           x89%byte [x50%byte] "image/png"
           eq_refl eq_refl eq_refl eq_refl eq_refl eq_refl eq_refl eq_refl
           eq_refl).
Defined.

(** [upload_image_to_spaces] reports an upload only when the flow produced
    image bytes and the store accepted exactly those bytes, and the URL and
    file name it reports are the ones the store returned. *)
Theorem upload_reported_only_when_stored (cfg : config) (R : remote)
    (fuel : nat) (request_json : json) (w : world) (url filename : string) :
  upload_image_to_spaces cfg R fuel request_json w
    = Some (Uploaded url filename) ->
  exists prompt model_id options img_bytes content_type,
    read_request cfg request_json = inr (prompt, model_id, options) /\
    inference cfg R fuel prompt model_id options w
      = Some (Ok (Got img_bytes content_type)) /\
    img_bytes <> [] /\
    spaces_put R prompt img_bytes = Ok (Some (url, filename)).
Proof.
  unfold upload_image_to_spaces.
  destruct (read_request cfg request_json) as [r0|[[prompt model_id] options]]
    eqn:Hread.
  { unfold read_request in Hread.
    destruct (key_missing cfg); [inversion Hread; subst; discriminate|].
    destruct (py_or request_json (JDict [])); try discriminate Hread;
      try (inversion Hread; subst; discriminate).
    destruct (negb _); inversion Hread; subst. discriminate. }
  destruct (inference _ _ _ _ _ _ _) as [o|] eqn:Hinf; [|discriminate].
  cbn [option_map]. intros H. injection H as Hfin.
  destruct o as [[resp|fr|img ct]|e];
    cbn [upload_image_to_spaces_finish] in Hfin; try discriminate Hfin.
  - destruct (spaces_put R prompt img) as [[[u f]|]|e] eqn:Hput;
      try discriminate Hfin.
    + inversion Hfin; subst.
      exists prompt, model_id, options, img, ct.
      repeat split; auto.
      destruct (inference_cases _ _ _ _ _ _ _ _ Hinf)
        as [H|[H|[(f0 & body & H & _)|[(resp & H)|[(rid & e & w' & _ & _ & H)
           |(rid & fr & w' & _ & _ & H)]]]]]; try discriminate H.
      symmetry in H. apply (after_poll_got _ _ _ _ H).
    + destruct e; discriminate Hfin.
  - destruct e; discriminate Hfin.
Qed.

Lemma upload_reported_only_when_stored_witness :
  exists prompt model_id options img_bytes content_type,
    read_request defaults (JDict [("prompt", JStr "a cat")])
      = inr (prompt, model_id, options) /\
    inference defaults
      (storing (reporting (JDict [("status", JStr "COMPLETE")])
                          (JDict [("url", JStr "http://x/img.png")]))
               "https://b.sgp1.digitaloceanspaces.com/generated_images/a.png"
               "generated_images/a.png")
      1 prompt model_id options boot
      = Some (Ok (Got img_bytes content_type)) /\
    img_bytes <> [] /\
    spaces_put
      (storing (reporting (JDict [("status", JStr "COMPLETE")])
                          (JDict [("url", JStr "http://x/img.png")]))
               "https://b.sgp1.digitaloceanspaces.com/generated_images/a.png"
               "generated_images/a.png")
      prompt img_bytes
      = Ok (Some ("https://b.sgp1.digitaloceanspaces.com/generated_images/a.png",
                  "generated_images/a.png")).
Proof.
  exact (upload_reported_only_when_stored defaults
           (storing (reporting (JDict [("status", JStr "COMPLETE")])
                               (JDict [("url", JStr "http://x/img.png")]))
                    "https://b.sgp1.digitaloceanspaces.com/generated_images/a.png"
                    "generated_images/a.png")
           1 (JDict [("prompt", JStr "a cat")]) boot
           "https://b.sgp1.digitaloceanspaces.com/generated_images/a.png"
           "generated_images/a.png" eq_refl).
Defined.

Lemma handler_labels_witness :
  label (upload_image_to_spaces_finish (running 0) (JStr "a cat")
           (Raise (TimeoutError 60)))
  <> label (upload_image_to_spaces_finish (running 0) (JStr "a cat")
              (Raise (RuntimeError (JDict [("status", JStr "FAILED")])))).
Proof.
  apply (proj2 (proj2 handler_labels) (running 0) (JStr "a cat")
           (Raise (TimeoutError 60))
           (Raise (RuntimeError (JDict [("status", JStr "FAILED")])))
           PollTimeoutError JobFailedError eq_refl eq_refl).
  - discriminate.
  - reflexivity.
  - reflexivity.
Defined.

(** ** The file name of an upload *)

Lemma length_substring_le (n : nat) : forall s,
  (String.length (substring 0 n s) <= n)%nat.
Proof.
  induction n as [|n IH]; intros [|c s]; cbn; try lia.
  specialize (IH s). lia.
Qed.

Lemma substring_short (n : nat) : forall s,
  (String.length s <= n)%nat -> substring 0 n s = s.
Proof.
  induction n as [|n IH]; intros [|c s]; cbn; intros H; try reflexivity;
    try lia.
  rewrite IH by lia. reflexivity.
Qed.

Lemma length_filter_string_le (keep : ascii -> bool) (s : string) :
  (String.length (filter_string keep s) <= String.length s)%nat.
Proof.
  induction s as [|c s IH]; cbn; [lia|]. destruct (keep c); cbn; lia.
Qed.

Lemma length_rstrip_le (s : string) :
  (String.length (rstrip s) <= String.length s)%nat.
Proof.
  induction s as [|c s IH]; cbn [rstrip String.length]; [lia|].
  destruct (rstrip s) as [|c' s'].
  - destruct (isspace c); cbn; lia.
  - cbn [String.length] in *. lia.
Qed.

Lemma length_underscore_spaces (s : string) :
  String.length (underscore_spaces s) = String.length s.
Proof. induction s as [|c s IH]; cbn; congruence. Qed.

Lemma chars_all_filter (keep : ascii -> bool) (s : string) :
  chars_all keep (filter_string keep s) = true.
Proof.
  unfold chars_all. induction s as [|c s IH]; [reflexivity|].
  cbn [filter_string]. destruct (keep c) eqn:Hc; [|exact IH].
  cbn [list_ascii_of_string forallb]. rewrite Hc, IH. reflexivity.
Qed.

Lemma chars_all_rstrip (p : ascii -> bool) (s : string) :
  chars_all p s = true -> chars_all p (rstrip s) = true.
Proof.
  unfold chars_all. induction s as [|c s IH]; [reflexivity|].
  cbn [list_ascii_of_string forallb rstrip]. intros H.
  apply andb_prop in H. destruct H as [Hc Hs]. specialize (IH Hs).
  destruct (rstrip s) as [|c' s'].
  - destruct (isspace c); cbn; [reflexivity|]. rewrite Hc. reflexivity.
  - cbn [list_ascii_of_string forallb] in *. rewrite Hc, IH. reflexivity.
Qed.

Lemma table_name_chars :
  forallb (fun c =>
    implb (kept_in_name c)
          (name_char (if Ascii.eqb c " " then "_"%char else c))
    && implb (name_char c)
             (kept_in_name c && negb (isspace c) && negb (Ascii.eqb c " ")))
    all_ascii = true.
Proof. vm_compute. reflexivity. Qed.

Lemma name_char_facts (c : ascii) :
  (kept_in_name c = true ->
   name_char (if Ascii.eqb c " " then "_"%char else c) = true) /\
  (name_char c = true ->
   kept_in_name c = true /\ isspace c = false /\ Ascii.eqb c " " = false).
Proof.
  pose proof table_name_chars as T. rewrite forallb_forall in T.
  specialize (T c (all_ascii_complete c)).
  apply andb_prop in T. destruct T as [T1 T2]. split.
  - intros H. rewrite H in T1. exact T1.
  - intros H. rewrite H in T2. cbn [implb] in T2.
    apply andb_prop in T2. destruct T2 as [T2 T3].
    apply andb_prop in T2. destruct T2 as [T2 T4].
    apply negb_true_iff in T3, T4. auto.
Qed.

Lemma chars_all_underscore (s : string) :
  chars_all kept_in_name s = true ->
  chars_all name_char (underscore_spaces s) = true.
Proof.
  unfold chars_all. induction s as [|c s IH]; [reflexivity|].
  cbn [list_ascii_of_string forallb underscore_spaces]. intros H.
  apply andb_prop in H. destruct H as [Hc Hs].
  rewrite (proj1 (name_char_facts c) Hc), (IH Hs). reflexivity.
Qed.

Lemma name_chars_unchanged (s : string) :
  chars_all name_char s = true ->
  filter_string kept_in_name s = s /\ rstrip s = s /\ underscore_spaces s = s.
Proof.
  unfold chars_all. induction s as [|c s IH]; [auto|].
  cbn [list_ascii_of_string forallb]. intros H.
  apply andb_prop in H. destruct H as [Hc Hs].
  destruct (IH Hs) as (Hf & Hr & Hu).
  destruct (proj2 (name_char_facts c) Hc) as (Hk & Hsp & Hb).
  cbn [filter_string rstrip underscore_spaces].
  rewrite Hk, Hf, Hr, Hu, Hb, Hsp. repeat split.
  destruct s; reflexivity.
Qed.

(** The part of the file name taken from an ASCII prompt has at most 30
    characters, all of them letters, digits, [-] or [_], so it holds no
    space, dot or slash; and cleaning it again changes nothing. *)
Theorem safe_prompt_is_safe (prompt : string) :
  ascii_only prompt = true ->
  (String.length (safe_prompt prompt) <= 30)%nat /\
  chars_all name_char (safe_prompt prompt) = true /\
  safe_prompt (safe_prompt prompt) = safe_prompt prompt.
Proof.
  intros _.
  assert (Hlen : (String.length (safe_prompt prompt) <= 30)%nat).
  { unfold safe_prompt. rewrite length_underscore_spaces.
    pose proof (length_rstrip_le
                  (filter_string kept_in_name (substring 0 30 prompt))).
    pose proof (length_filter_string_le kept_in_name (substring 0 30 prompt)).
    pose proof (length_substring_le 30 prompt). lia. }
  assert (Hchars : chars_all name_char (safe_prompt prompt) = true).
  { unfold safe_prompt.
    apply chars_all_underscore, chars_all_rstrip, chars_all_filter. }
  split; [exact Hlen|]. split; [exact Hchars|].
  destruct (name_chars_unchanged _ Hchars) as (Hf & Hr & Hu).
  unfold safe_prompt at 1.
  rewrite (substring_short 30 _ Hlen), Hf, Hr, Hu. reflexivity.
Qed.

Lemma safe_prompt_is_safe_witness :
  safe_prompt (safe_prompt "a cat, on ../the mat!  ")
  = safe_prompt "a cat, on ../the mat!  ".
Proof.
  exact (proj2 (proj2 (safe_prompt_is_safe "a cat, on ../the mat!  " eq_refl))).
Defined.

Example safe_prompt_example :
  safe_prompt "a cat, on ../the mat!  " = "a_cat_on_the_mat".
Proof. reflexivity. Qed.
